(** * ChatApp (apps/chat-app/index.ts) over the nanobase client

    A shallow embedding of the chat sample: rooms, messages, read receipts
    and notification fan-out, written against an explicit model of the
    three remote services the client talks to (record store, notifier,
    clock).  Every asynchronous method of the source becomes a computation
    in a state-and-error monad over [World]; an exception of the source is
    an [Err] result, and whatever was written before the exception stays
    written. *)

From Stdlib Require Import List String Ascii Bool Arith NArith Lia.
From Stdlib Require Import Permutation Sorted DecimalString.
Import ListNotations.
Open Scope string_scope.
Open Scope list_scope.

Set Implicit Arguments.

(** ** JavaScript values used by the source *)

(** Identifiers, names, addresses and timestamps are only ever compared,
    never cut, by the source; they are kept as [string]s, one element per
    code unit.  [a < b] on them: lexicographic on code units, a proper
    prefix being smaller. *)
Definition js_lt (a b : string) : bool := String.ltb a b.

(** Stable insertion of [x] into a list ordered by [before]: [x] goes in
    front of the first element that is not strictly before it. *)
Fixpoint insert_by {A} (before : A -> A -> bool) (x : A) (l : list A) : list A :=
  match l with
  | [] => [x]
  | y :: l' => if before y x then y :: insert_by before x l' else x :: y :: l'
  end.

Fixpoint sort_by {A} (before : A -> A -> bool) (l : list A) : list A :=
  match l with
  | [] => []
  | x :: l' => insert_by before x (sort_by before l')
  end.

(** [Array.prototype.sort()] without a comparator, on an array of strings. *)
Definition js_sort (l : list string) : list string := sort_by js_lt l.

(** [[...new Set(l)]]: the first occurrence of every element, in order. *)
Fixpoint js_set (l : list string) : list string :=
  match l with
  | [] => []
  | x :: l' => x :: filter (fun y => negb (y =? x)) (js_set l')
  end.

(** [l.includes(x)]. *)
Definition includes (l : list string) (x : string) : bool :=
  existsb (fun y => y =? x) l.

(** [l.filter(id => id !== x)]. *)
Definition without (x : string) (l : list string) : list string :=
  filter (fun id => negb (id =? x)) l.

(** Free text, which the source cuts by position, is kept as what a
    JavaScript string is: the sequence of its UTF-16 code units, each a
    number below 65536.  A character outside the basic plane takes two
    units, any other one. *)
Definition utf16 : Type := list N.

(** The text of an ASCII literal: one unit per character. *)
Definition units (s : string) : utf16 :=
  map N_of_ascii (list_ascii_of_string s).

(** [s.substring(a, b)] for non-negative integer arguments: the units from
    position [min a b] up to, not including, position [max a b], both
    clamped to the length. *)
Definition js_substring (s : utf16) (a b : nat) : utf16 :=
  let len := List.length s in
  let a' := Nat.min a len in
  let b' := Nat.min b len in
  let lo := Nat.min a' b' in
  let hi := Nat.max a' b' in
  firstn (hi - lo) (skipn lo s).

(** ** Type definitions of the source *)

Module User.
Record t := mk
  { id : string;
    email : string;
    displayName : option string;
    lastSeenAt : option string }.
End User.

Module ChatRoom.
Inductive kind := direct | group.
Record t := mk
  { id : string;
    name : string;
    type : kind;
    members : list string;
    createdAt : string;
    lastMessageAt : string }.

Definition kind_eqb (a b : kind) : bool :=
  match a, b with
  | direct, direct | group, group => true
  | _, _ => false
  end.
End ChatRoom.

Module Message.
Inductive kind := text | image | file.
Record t := mk
  { id : string;
    roomId : string;
    userId : string;
    content : utf16;
    type : kind;
    readBy : list string;
    createdAt : string }.
End Message.

Module Notification.
Inductive channel := email | push | sms.
Record meta := mkMeta
  { roomId : string;
    messageId : string;
    senderId : string }.
Record t := mk
  { userId : string;
    type : channel;
    message : utf16;
    metadata : meta }.
End Notification.

(** ** What goes over the wire *)

(** The [where] objects the source builds. *)
Inductive RoomWhere :=
| RoomTypeMembers (k : ChatRoom.kind) (ms : list string)
    (* { type: k, members: ms } *)
| RoomContains (uid : string)
    (* { members: { $contains: uid } } *)
| RoomId (id : string).
    (* { id } *)

Inductive MessageWhere :=
| MsgRoom (roomId : string)
    (* { roomId } *)
| MsgId (id : string)
    (* { id } *)
| MsgUnread (uid : string) (roomId : option string).
    (* { readBy: { $not: { $contains: uid } }, roomId? } *)

Inductive Dir := asc | desc.

(** The partial records passed to [update]. *)
Inductive RoomPatch :=
| SetMembers (ms : list string)
| SetLastMessageAt (t : string).

Inductive MessagePatch :=
| SetReadBy (us : list string).

Inductive Request :=
| CreateRoom (name : string) (k : ChatRoom.kind) (ms : list string)
             (createdAt lastMessageAt : string)
| CreateMessage (roomId userId : string) (content : utf16) (k : Message.kind)
                (readBy : list string) (createdAt : string)
| FindRooms (w : RoomWhere) (orderBy : option Dir) (limit : option nat)
| FindMessages (w : MessageWhere) (orderBy : option Dir) (limit : option nat)
| UpdateRoom (id : string) (p : RoomPatch)
| UpdateMessage (id : string) (p : MessagePatch)
| DeleteRoom (id : string)
| Send (n : Notification.t).

(** ** The world outside the client *)

(** [chat_rooms] and [messages] are the two collections, in insertion
    order.  [wire] lists every request issued so far, oldest first, with
    whether the service accepted it.  [clock_reads] counts the calls of
    [new Date()]. *)
Record World := mkWorld
  { chat_rooms : list ChatRoom.t;
    messages : list Message.t;
    wire : list (Request * bool);
    clock_reads : nat }.

(** What the client cannot control: which requests the services refuse
    ([rejects n r]: the request [r], issued after [n] earlier ones, is
    answered with [success = false] or not answered), the ids the store
    hands out, and the readings of the clock. *)
Record Env := mkEnv
  { rejects : nat -> Request -> bool;
    assign_id : nat -> string;
    clock : nat -> string }.

Inductive Error :=
| NotAuthenticated   (* new Error('Not authenticated') *)
| RoomNotFound       (* new Error('Room not found') *)
| ApiError.          (* thrown by NanobaseClient.fetch *)

Inductive Result (A : Type) :=
| Ok (a : A)
| Err (e : Error).
Arguments Ok {A} a.
Arguments Err {A} e.

Definition M (A : Type) : Type := World -> Result A * World.

Definition ret {A} (a : A) : M A := fun w => (Ok a, w).

Definition throw {A} (e : Error) : M A := fun w => (Err e, w).

Definition bind {A B} (c : M A) (k : A -> M B) : M B :=
  fun w =>
    match c w with
    | (Ok a, w') => k a w'
    | (Err e, w') => (Err e, w')
    end.

Notation "x <- c ;; k" := (bind c (fun x => k))
  (at level 61, c at next level, right associativity).
Notation "c ;;; k" := (bind c (fun _ => k))
  (at level 61, right associativity).

(** [for (const x of l) { await body(x) }] *)
Fixpoint for_each {A} (l : list A) (body : A -> M unit) : M unit :=
  match l with
  | [] => ret tt
  | x :: l' => body x ;;; for_each l' body
  end.

(** ** The record store *)

(** The store service is not part of the repository: the client only
    sends it requests.  Its side is modelled from the contract of the
    external interfaces (create, find with where / orderBy / limit, update,
    delete), on collections kept in insertion order. *)

Definition list_eqb (a b : list string) : bool :=
  if list_eq_dec string_dec a b then true else false.

(** Modelled from the spec: how the store reads the [where] objects, which
    no source file computes.  A plain value asks for equality (for
    [members], the same ids in the same order), [$contains] for
    membership, [$not] negates, and several fields are a conjunction. *)
Definition room_matches (q : RoomWhere) (r : ChatRoom.t) : bool :=
  match q with
  | RoomTypeMembers k ms =>
      ChatRoom.kind_eqb (ChatRoom.type r) k && list_eqb (ChatRoom.members r) ms
  | RoomContains uid => includes (ChatRoom.members r) uid
  | RoomId id => ChatRoom.id r =? id
  end.

Definition message_matches (q : MessageWhere) (m : Message.t) : bool :=
  match q with
  | MsgRoom rid => Message.roomId m =? rid
  | MsgId id => Message.id m =? id
  | MsgUnread uid rid =>
      negb (includes (Message.readBy m) uid)
      && match rid with
         | Some r => Message.roomId m =? r
         | None => true
         end
  end.

Definition ordered {A} (key : A -> string) (o : option Dir) (l : list A) : list A :=
  match o with
  | None => l
  | Some asc => sort_by (fun x y => js_lt (key x) (key y)) l
  | Some desc => sort_by (fun x y => js_lt (key y) (key x)) l
  end.

Definition limited {A} (limit : option nat) (l : list A) : list A :=
  match limit with
  | None => l
  | Some n => firstn n l
  end.

(** Modelled from the spec: the answer of the store to a [find], which no
    source file computes.  The records matching [where], in insertion
    order or, with [orderBy], stably sorted on the named timestamp; [limit]
    keeps a prefix, and a [find] without [limit] returns every match. *)
Definition select {A} (matches : A -> bool) (key : A -> string)
    (o : option Dir) (limit : option nat) (l : list A) : list A :=
  limited limit (ordered key o (filter matches l)).

Definition patch_room (p : RoomPatch) (r : ChatRoom.t) : ChatRoom.t :=
  match p with
  | SetMembers ms =>
      ChatRoom.mk (ChatRoom.id r) (ChatRoom.name r) (ChatRoom.type r) ms
                  (ChatRoom.createdAt r) (ChatRoom.lastMessageAt r)
  | SetLastMessageAt t =>
      ChatRoom.mk (ChatRoom.id r) (ChatRoom.name r) (ChatRoom.type r)
                  (ChatRoom.members r) (ChatRoom.createdAt r) t
  end.

Definition patch_message (p : MessagePatch) (m : Message.t) : Message.t :=
  match p with
  | SetReadBy us =>
      Message.mk (Message.id m) (Message.roomId m) (Message.userId m)
                 (Message.content m) (Message.type m) us (Message.createdAt m)
  end.

(** [update] patches the record carrying the id, which is the first one
    found with it. *)
Fixpoint update_first {A} (hit : A -> bool) (f : A -> A) (l : list A) : list A :=
  match l with
  | [] => []
  | x :: l' => if hit x then f x :: l' else x :: update_first hit f l'
  end.

(** Modelled from the spec: what an accepted request does to the store,
    which no source file computes.  [create] appends the record under the
    id the store assigns, [update] patches the record carrying the id,
    [delete] leaves no record with that id; an [update] or [delete] of an
    unknown id that the store accepts changes nothing, and so do [find]
    and the notifier's [send]. *)
Definition serve (n : nat) (assign : nat -> string) (req : Request)
    (w : World) : World :=
  match req with
  | CreateRoom name k ms c t =>
      mkWorld (chat_rooms w ++ [ChatRoom.mk (assign n) name k ms c t])
              (messages w) (wire w) (clock_reads w)
  | CreateMessage rid uid body k rb c =>
      mkWorld (chat_rooms w)
              (messages w ++ [Message.mk (assign n) rid uid body k rb c])
              (wire w) (clock_reads w)
  | UpdateRoom id p =>
      mkWorld (update_first (fun r => ChatRoom.id r =? id) (patch_room p) (chat_rooms w))
              (messages w) (wire w) (clock_reads w)
  | UpdateMessage id p =>
      mkWorld (chat_rooms w)
              (update_first (fun m => Message.id m =? id) (patch_message p) (messages w))
              (wire w) (clock_reads w)
  | DeleteRoom id =>
      mkWorld (filter (fun r => negb (ChatRoom.id r =? id)) (chat_rooms w))
              (messages w) (wire w) (clock_reads w)
  | FindRooms _ _ _ | FindMessages _ _ _ | Send _ => w
  end.

Definition logged (req : Request) (ok : bool) (w : World) : World :=
  mkWorld (chat_rooms w) (messages w) (wire w ++ [(req, ok)]) (clock_reads w).

Section Client.

Variable env : Env.

(** ** NanobaseClient.fetch

    One request: refused, it throws and nothing is stored; accepted, the
    service applies it and [answer] reads the reply off the state the
    request was applied to. *)
Definition fetch {A} (req : Request) (answer : World -> A) : M A :=
  fun w =>
    let n := List.length (wire w) in
    if rejects env n req
    then (Err ApiError, logged req false w)
    else (Ok (answer w), logged req true (serve n (assign_id env) req w)).

(** [new Date().toISOString()] *)
Definition now : M string :=
  fun w =>
    (Ok (clock env (clock_reads w)),
     mkWorld (chat_rooms w) (messages w) (wire w) (S (clock_reads w))).

(** ** DataClient, at the two record types the chat uses *)

Definition create_room (name : string) (k : ChatRoom.kind) (ms : list string)
    (c t : string) : M ChatRoom.t :=
  fetch (CreateRoom name k ms c t)
        (fun w => ChatRoom.mk (assign_id env (List.length (wire w))) name k ms c t).

Definition create_message (rid uid : string) (body : utf16) (k : Message.kind)
    (rb : list string) (c : string) : M Message.t :=
  fetch (CreateMessage rid uid body k rb c)
        (fun w => Message.mk (assign_id env (List.length (wire w))) rid uid body k rb c).

(** [if (query.limit) params.set('limit', ...)]: a limit of 0 is falsy and
    is not sent. *)
Definition limit_param (limit : option nat) : option nat :=
  match limit with
  | Some 0 => None
  | l => l
  end.

Definition find_rooms (q : RoomWhere) (o : option Dir) (limit : option nat)
    : M (list ChatRoom.t) :=
  fetch (FindRooms q o (limit_param limit))
        (fun w => select (room_matches q) ChatRoom.lastMessageAt o
                         (limit_param limit) (chat_rooms w)).

Definition find_messages (q : MessageWhere) (o : option Dir) (limit : option nat)
    : M (list Message.t) :=
  fetch (FindMessages q o (limit_param limit))
        (fun w => select (message_matches q) Message.createdAt o
                         (limit_param limit) (messages w)).

(** [findOne]: [find] with [limit: 1], then [results[0] || null]. *)
Definition findOne_room (q : RoomWhere) : M (option ChatRoom.t) :=
  results <- find_rooms q None (Some 1) ;;
  ret (hd_error results).

Definition findOne_message (q : MessageWhere) : M (option Message.t) :=
  results <- find_messages q None (Some 1) ;;
  ret (hd_error results).

(** [update] and [delete] put the id into the path of the request,
    [/data/<collection>/<id>], as it stands; the request carries the id as
    the key of the record it addresses, and the store is taken to address
    records by that key.  The record [update] resolves to is never looked
    at by the chat. *)
Definition update_room (id : string) (p : RoomPatch) : M unit :=
  fetch (UpdateRoom id p) (fun _ => tt).

Definition update_message (id : string) (p : MessagePatch) : M unit :=
  fetch (UpdateMessage id p) (fun _ => tt).

Definition delete_room (id : string) : M unit :=
  fetch (DeleteRoom id) (fun _ => tt).

(** ** NotifyClient.send *)
Definition notify_send (n : Notification.t) : M unit :=
  fetch (Send n) (fun _ => tt).

(** ** ChatApp

    [user] is the field [this.user]: [None] before [login] and after
    [logout]. *)
Section ChatApp.

Variable user : option User.t.

(** [if (!this.user) throw new Error('Not authenticated')] *)
Definition authenticated : M User.t :=
  match user with
  | Some u => ret u
  | None => throw NotAuthenticated
  end.

Definition createDirectRoom (otherUserId : string) : M ChatRoom.t :=
  u <- authenticated ;;
  existing <- find_rooms
    (RoomTypeMembers ChatRoom.direct (js_sort [User.id u; otherUserId]))
    None None ;;
  match existing with
  | r :: _ => ret r
  | [] =>
      let ms := js_sort [User.id u; otherUserId] in
      c <- now ;;
      t <- now ;;
      create_room "" ChatRoom.direct ms c t
  end.

Definition createGroupRoom (name : string) (memberIds : list string)
    : M ChatRoom.t :=
  u <- authenticated ;;
  let ms := js_set (User.id u :: memberIds) in
  c <- now ;;
  t <- now ;;
  create_room name ChatRoom.group ms c t.

Definition getRooms : M (list ChatRoom.t) :=
  u <- authenticated ;;
  find_rooms (RoomContains (User.id u)) (Some desc) None.

Definition leaveRoom (roomId : string) : M unit :=
  u <- authenticated ;;
  room <- findOne_room (RoomId roomId) ;;
  match room with
  | None => throw RoomNotFound
  | Some room =>
      let updatedMembers := without (User.id u) (ChatRoom.members room) in
      match updatedMembers with
      | [] => delete_room roomId
      | _ :: _ => update_room roomId (SetMembers updatedMembers)
      end
  end.

(** The label put in front of the preview: the ten code units of the
    literal of the source, a fixed Japanese phrase ("new message: "). *)
Definition preview_label : utf16 :=
  [0x65B0; 0x3057; 0x3044; 0x30E1; 0x30C3; 0x30BB; 0x30FC; 0x30B8; 0x3A; 0x20]%N.

Definition notification (u : User.t) (roomId : string) (m : Message.t)
    (memberId : string) : Notification.t :=
  Notification.mk memberId Notification.push
    (preview_label ++ js_substring (Message.content m) 0 50)
    (Notification.mkMeta roomId (Message.id m) (User.id u)).

(** Private; only called from [sendMessage], after its check, so
    [this.user!] is the user [u]. *)
Definition notifyMembers (u : User.t) (roomId : string) (m : Message.t)
    : M unit :=
  room <- findOne_room (RoomId roomId) ;;
  match room with
  | None => ret tt
  | Some room =>
      let otherMembers := without (User.id u) (ChatRoom.members room) in
      for_each otherMembers
        (fun memberId => notify_send (notification u roomId m memberId))
  end.

Definition sendMessage (roomId : string) (content : utf16) (k : Message.kind)
    : M Message.t :=
  u <- authenticated ;;
  c <- now ;;
  message <- create_message roomId (User.id u) content k [User.id u] c ;;
  update_room roomId (SetLastMessageAt (Message.createdAt message)) ;;;
  notifyMembers u roomId message ;;;
  ret message.

(** [limit: number = 50]; [None] is the omitted argument. *)
Definition getMessages (roomId : string) (limit : option nat)
    : M (list Message.t) :=
  let limit := match limit with Some n => n | None => 50 end in
  _ <- authenticated ;;
  found <- find_messages (MsgRoom roomId) (Some desc) (Some limit) ;;
  ret (rev found).

Definition markAsRead (messageIds : list string) : M unit :=
  u <- authenticated ;;
  for_each messageIds
    (fun messageId =>
       message <- findOne_message (MsgId messageId) ;;
       match message with
       | Some m =>
           if includes (Message.readBy m) (User.id u)
           then ret tt
           else update_message messageId
                  (SetReadBy (Message.readBy m ++ [User.id u]))
       | None => ret tt
       end).

(** [if (roomId)]: an omitted or empty room id does not narrow the
    query. *)
Definition getUnreadCount (roomId : option string) : M nat :=
  u <- authenticated ;;
  let scope :=
    match roomId with
    | Some r => if r =? "" then None else Some r
    | None => None
    end in
  found <- find_messages (MsgUnread (User.id u) scope) None None ;;
  ret (List.length found).

End ChatApp.

(** [room?.members || []].  The method does not read [this.user]; the
    argument [user] is there so that it can be called like the others. *)
Definition getOnlineUsers (user : option User.t) (roomId : string)
    : M (list string) :=
  room <- findOne_room (RoomId roomId) ;;
  ret match room with
      | Some room => ChatRoom.members room
      | None => []
      end.

End Client.

(** * Vocabulary of the statements *)

Unset Implicit Arguments.

(** The room, resp. message, that [findOne] with [{ id }] resolves to. *)
Definition room_of (roomId : string) (w : World) : option ChatRoom.t :=
  hd_error (filter (room_matches (RoomId roomId)) (chat_rooms w)).

Definition message_of (messageId : string) (w : World) : option Message.t :=
  hd_error (filter (message_matches (MsgId messageId)) (messages w)).

(** The query [createDirectRoom] issues for the pair [a], [b], and the
    direct rooms of that pair in the store. *)
Definition direct_query (a b : string) : RoomWhere :=
  RoomTypeMembers ChatRoom.direct (js_sort [a; b]).

Definition direct_rooms (a b : string) (w : World) : list ChatRoom.t :=
  filter (room_matches (direct_query a b)) (chat_rooms w).

(** The notifier calls among a list of requests, with their outcome. *)
Fixpoint sends (l : list (Request * bool)) : list (Notification.t * bool) :=
  match l with
  | [] => []
  | (Send n, ok) :: l' => (n, ok) :: sends l'
  | _ :: l' => sends l'
  end.

(** The store writes among a list of requests. *)
Definition is_write (r : Request) : bool :=
  match r with
  | CreateRoom _ _ _ _ _ | CreateMessage _ _ _ _ _ _
  | UpdateRoom _ _ | UpdateMessage _ _ | DeleteRoom _ => true
  | FindRooms _ _ _ | FindMessages _ _ _ | Send _ => false
  end.

(** Every service answers every request. *)
Definition reliable (env : Env) : Prop :=
  forall n req, rejects env n req = false.

(** No room of the store has an empty member list. *)
Definition no_empty_room (w : World) : Prop :=
  Forall (fun r => ChatRoom.members r <> []) (chat_rooms w).

(** The loop of [notifyMembers] over the members [l]. *)
Definition fanout env (u : User.t) (roomId : string) (m : Message.t)
    (l : list string) : M unit :=
  for_each l (fun memberId => notify_send env (notification u roomId m memberId)).

(** The wire entries of a fan-out to [l] that went through. *)
Definition delivered (u : User.t) (roomId : string) (m : Message.t)
    (l : list string) : list (Request * bool) :=
  map (fun x => (Send (notification u roomId m x), true)) l.

(** [w] with the entries [l] appended to its wire. *)
Definition with_wire (w : World) (l : list (Request * bool)) : World :=
  mkWorld (chat_rooms w) (messages w) (wire w ++ l) (clock_reads w).

(** The message [sendMessage] asks the store to create, as the store
    returns it. *)
Definition posted env (u : User.t) (roomId : string) (content : utf16)
    (k : Message.kind) (w : World) : Message.t :=
  Message.mk (assign_id env (List.length (wire w))) roomId (User.id u) content
             k [User.id u] (clock env (clock_reads w)).

(** The create request of a [sendMessage]. *)
Definition create_of env (u : User.t) (roomId : string) (content : utf16)
    (k : Message.kind) (w : World) : Request :=
  CreateMessage roomId (User.id u) content k [User.id u]
                (clock env (clock_reads w)).

(** The update request of a [sendMessage]. *)
Definition touch_of env (roomId : string) (w : World) : Request :=
  UpdateRoom roomId (SetLastMessageAt (clock env (clock_reads w))).

(** The world once the message is stored and the room touched. *)
Definition stored env (u : User.t) (roomId : string) (content : utf16)
    (k : Message.kind) (w : World) : World :=
  mkWorld
    (update_first (fun r => ChatRoom.id r =? roomId)
       (patch_room (SetLastMessageAt (clock env (clock_reads w))))
       (chat_rooms w))
    (messages w ++ [posted env u roomId content k w])
    (wire w ++ [(create_of env u roomId content k w, true);
                (touch_of env roomId w, true)])
    (S (clock_reads w)).

(** The requests issued between two worlds. *)
Definition issued (w w' : World) : list (Request * bool) :=
  skipn (List.length (wire w)) (wire w').

(** The world a completed [sendMessage] on an existing room leaves. *)
Definition fanned_out env (u : User.t) (roomId : string) (content : utf16)
    (k : Message.kind) (room : ChatRoom.t) (w : World) : World :=
  with_wire (stored env u roomId content k w)
    ((FindRooms (RoomId roomId) None (Some 1), true)
     :: delivered u roomId (posted env u roomId content k w)
          (without (User.id u) (ChatRoom.members room))).

(** The notifier refuses the calls addressed to [x]; everything else is
    answered. *)
Definition notifier_down_for (x : string) (env : Env) : Prop :=
  forall n req,
    rejects env n req
    = match req with
      | Send nt => Notification.userId nt =? x
      | _ => false
      end.

(** The entries of [l] in front of the first [x]. *)
Fixpoint before (x : string) (l : list string) : list string :=
  match l with
  | [] => []
  | y :: l' => if y =? x then [] else y :: before x l'
  end.

(** A room with its member list replaced. *)
Definition with_members (ms : list string) (r : ChatRoom.t) : ChatRoom.t :=
  patch_room (SetMembers ms) r.

(** The store after a run of [leaveRoom] calls, each by its own caller. *)
Definition leave_all env (calls : list (option User.t * string)) (w : World)
    : World :=
  fold_left (fun w c => snd (leaveRoom env (fst c) (snd c) w)) calls w.

(** The member list once every user of [us] has been filtered out. *)
Definition without_all (us : list User.t) (ms : list string) : list string :=
  fold_left (fun ms u => without (User.id u) ms) us ms.

(** [m'] is [m] with possibly more read receipts and nothing else changed. *)
Definition receipts_grow (m m' : Message.t) : Prop :=
  m' = patch_message (SetReadBy (Message.readBy m')) m
  /\ incl (Message.readBy m) (Message.readBy m').

(** The store after a run of [markAsRead] calls, each by its own caller. *)
Definition mark_all env (calls : list (option User.t * list string))
    (w : World) : World :=
  fold_left (fun w c => snd (markAsRead env (fst c) (snd c) w)) calls w.

(** The body of the loop of [markAsRead]. *)
Definition mark_one env (u : User.t) (messageId : string) : M unit :=
  message <- findOne_message env (MsgId messageId) ;;
  match message with
  | Some m =>
      if includes (Message.readBy m) (User.id u)
      then ret tt
      else update_message env messageId
             (SetReadBy (Message.readBy m ++ [User.id u]))
  | None => ret tt
  end.

(** [a] is not later than [b]. *)
Definition not_later (a b : Message.t) : Prop :=
  js_lt (Message.createdAt b) (Message.createdAt a) = false.

(** The messages of a room, oldest first: the whole descending listing of
    the store, reversed. *)
Definition history (roomId : string) (w : World) : list Message.t :=
  rev (select (message_matches (MsgRoom roomId)) Message.createdAt
              (Some desc) None (messages w)).

(** ** Sample data *)

Module Sample.

Definition ids (n : nat) : string :=
  ("id" ++ NilEmpty.string_of_uint (Nat.to_uint n))%string.

Definition ticking (ts : list string) (n : nat) : string :=
  nth n ts "1970-01-01T00:00:00.000Z".

Definition times : list string :=
  [ "2024-05-01T10:00:00.000Z"; "2024-05-01T10:00:00.001Z";
    "2024-05-01T10:00:05.000Z"; "2024-05-01T10:00:09.000Z" ].

(** All services up. *)
Definition up : Env := mkEnv (fun _ _ => false) ids (ticking times).

(** The notifier refuses every call addressed to [uid]. *)
Definition down_for (uid : string) : Env :=
  mkEnv (fun _ r => match r with
                    | Send n => Notification.userId n =? uid
                    | _ => false
                    end)
        ids (ticking times).

Definition u1 : User.t := User.mk "u1" "u1@example.com" None None.
Definition u2 : User.t := User.mk "u2" "u2@example.com" None None.
Definition u3 : User.t := User.mk "u3" "u3@example.com" None None.

Definition empty : World := mkWorld [] [] [] 0.

(** A group of three, created a day after the sample clock starts. *)
Definition team : ChatRoom.t :=
  ChatRoom.mk "r1" "team" ChatRoom.group ["u1"; "u2"; "u3"]
              "2024-05-02T08:00:00.000Z" "2024-05-02T09:30:00.000Z".

Definition hi : Message.t :=
  Message.mk "m1" "r1" "u1" (units "hi") Message.text ["u1"]
             "2024-05-02T09:00:00.000Z".

Definition yo : Message.t :=
  Message.mk "m2" "r1" "u2" (units "yo") Message.text ["u2"]
             "2024-05-02T09:30:00.000Z".

Definition office : World := mkWorld [team] [hi; yo] [] 0.

(** What [createDirectRoom "u2"], called by [u1] on the empty store,
    leaves behind. *)
Definition pair_room : ChatRoom.t :=
  ChatRoom.mk "id1" "" ChatRoom.direct ["u1"; "u2"]
              "2024-05-01T10:00:00.000Z" "2024-05-01T10:00:00.001Z".

Definition paired : World :=
  mkWorld [pair_room] []
          [ (FindRooms (direct_query "u1" "u2") None None, true);
            (CreateRoom "" ChatRoom.direct ["u1"; "u2"]
                        "2024-05-01T10:00:00.000Z" "2024-05-01T10:00:00.001Z",
             true) ]
          2.

End Sample.

(** ** Runs of operations *)

(** A call of one of the room and message operations. *)
Inductive Call :=
| CallCreateDirectRoom (otherUserId : string)
| CallCreateGroupRoom (name : string) (memberIds : list string)
| CallGetRooms
| CallLeaveRoom (roomId : string)
| CallSendMessage (roomId : string) (content : utf16) (k : Message.kind)
| CallGetMessages (roomId : string) (limit : option nat)
| CallMarkAsRead (messageIds : list string)
| CallGetUnreadCount (roomId : option string)
| CallGetOnlineUsers (roomId : string).

(** The world a call leaves, whatever it returns or raises. *)
Definition perform env (user : option User.t) (c : Call) (w : World) : World :=
  match c with
  | CallCreateDirectRoom other => snd (createDirectRoom env user other w)
  | CallCreateGroupRoom name ids => snd (createGroupRoom env user name ids w)
  | CallGetRooms => snd (getRooms env user w)
  | CallLeaveRoom roomId => snd (leaveRoom env user roomId w)
  | CallSendMessage roomId content k => snd (sendMessage env user roomId content k w)
  | CallGetMessages roomId limit => snd (getMessages env user roomId limit w)
  | CallMarkAsRead ids => snd (markAsRead env user ids w)
  | CallGetUnreadCount roomId => snd (getUnreadCount env user roomId w)
  | CallGetOnlineUsers roomId => snd (getOnlineUsers env user roomId w)
  end.

Definition perform_all env (calls : list (option User.t * Call)) (w : World)
    : World :=
  fold_left (fun w c => perform env (fst c) (snd c) w) calls w.


(** The calls that only read. *)
Definition reads_only (c : Call) : bool :=
  match c with
  | CallGetRooms | CallGetMessages _ _ | CallGetUnreadCount _
  | CallGetOnlineUsers _ => true
  | _ => false
  end.

(** [msgs'] holds the messages of [msgs], in place and with at least the
    receipts they had, followed by new ones. *)
Definition messages_kept (msgs msgs' : list Message.t) : Prop :=
  exists old added,
    msgs' = old ++ added /\ Forall2 receipts_grow msgs old.

(** The number of messages [getUnreadCount] counts for [uid]. *)
Definition unread (uid : string) (scope : option string) (w : World) : nat :=
  List.length (filter (message_matches (MsgUnread uid scope)) (messages w)).

(** [a] was active no earlier than [b]. *)
Definition not_staler (a b : ChatRoom.t) : Prop :=
  js_lt (ChatRoom.lastMessageAt a) (ChatRoom.lastMessageAt b) = false.

(** The scope [getUnreadCount] puts in its query for the argument
    [roomId]: none for an omitted or empty one. *)
Definition scope_of (roomId : option string) : option string :=
  match roomId with
  | Some r => if r =? "" then None else Some r
  | None => None
  end.

(** ** The session: login, logout, presence

    [ChatApp.login] and [ChatApp.logout] talk to the authentication and
    the monitoring service only, so they get a world of their own: the
    token held by [NanobaseClient], the field [this.user], the requests
    sent so far with the [Authorization] header each carried, and the
    number of clock readings. *)

Module Session.

Inductive Endpoint :=
| PostLogin (email password : string)         (* /api/v1/auth/login-email *)
| PostLogout                                  (* /api/v1/auth/logout *)
| PostEvent (event userId timestamp : string). (* /api/v1/events *)

(** A request as the service sees it: the bearer token of the
    [Authorization] header, if the header was sent, and the call. *)
Record Sent := mkSent
  { bearer : option string;
    endpoint : Endpoint }.

Record App := mkApp
  { token : option string;
    user : option User.t;
    sent : list (Sent * bool);
    clock_reads : nat }.

(** What the client cannot control: which requests are refused, what the
    authentication service answers to a login it accepts, and the clock. *)
Record Services := mkServices
  { refuses : nat -> Sent -> bool;
    grants : string -> string -> string * User.t;
    clock : nat -> string }.

Definition Act (A : Type) : Type := App -> Result A * App.

Definition and_then {A B} (c : Act A) (k : A -> Act B) : Act B :=
  fun s =>
    match c s with
    | (Ok a, s') => k a s'
    | (Err e, s') => (Err e, s')
    end.

(** [if (this.token) headers['Authorization'] = ...]: no header for no
    token, and none for an empty one. *)
Definition authorization (t : option string) : option string :=
  match t with
  | Some t => if t =? "" then None else Some t
  | None => None
  end.

(** [NanobaseClient.fetch], for a call whose accepted answer is [answer]. *)
Definition fetch {A} (sv : Services) (e : Endpoint) (answer : A) : Act A :=
  fun s =>
    let req := mkSent (authorization (token s)) e in
    if refuses sv (List.length (sent s)) req
    then (Err ApiError,
          mkApp (token s) (user s) (sent s ++ [(req, false)]) (clock_reads s))
    else (Ok answer,
          mkApp (token s) (user s) (sent s ++ [(req, true)]) (clock_reads s)).

(** [NanobaseClient.setToken] *)
Definition setToken (t : option string) : Act unit :=
  fun s => (Ok tt, mkApp t (user s) (sent s) (clock_reads s)).

(** [this.user = ...] *)
Definition setUser (u : option User.t) : Act unit :=
  fun s => (Ok tt, mkApp (token s) u (sent s) (clock_reads s)).

(** [new Date().toISOString()] *)
Definition now (sv : Services) : Act string :=
  fun s =>
    (Ok (clock sv (clock_reads s)),
     mkApp (token s) (user s) (sent s) (S (clock_reads s))).

(** [AuthClient.login] *)
Definition auth_login (sv : Services) (email password : string)
    : Act (string * User.t) :=
  and_then (fetch sv (PostLogin email password) (grants sv email password))
    (fun result =>
       and_then (setToken (Some (fst result))) (fun _ s => (Ok result, s))).

(** [AuthClient.logout] *)
Definition auth_logout (sv : Services) : Act unit :=
  and_then (fetch sv PostLogout tt) (fun _ => setToken None).

(** [MonitorClient.track], for the one event the chat sends. *)
Definition monitor_track (sv : Services) (event userId timestamp : string)
    : Act unit :=
  fetch sv (PostEvent event userId timestamp) tt.

(** [ChatApp.updatePresence] *)
Definition updatePresence (sv : Services) : Act unit :=
  fun s =>
    match user s with
    | None => (Ok tt, s)
    | Some u =>
        and_then (now sv)
          (fun timestamp => monitor_track sv "user_online" (User.id u) timestamp)
          s
    end.

(** [ChatApp.login] *)
Definition login (sv : Services) (email password : string) : Act User.t :=
  and_then (auth_login sv email password)
    (fun result =>
       and_then (setUser (Some (snd result)))
         (fun _ =>
            and_then (updatePresence sv) (fun _ s => (Ok (snd result), s)))).

(** [ChatApp.logout] *)
Definition logout (sv : Services) : Act unit :=
  and_then (auth_logout sv) (fun _ => setUser None).

End Session.

(** A sample authentication service: it accepts everything and grants
    a token and a user id made from the email. *)
Definition sample_services : Session.Services :=
  Session.mkServices
    (fun _ _ => false)
    (fun email _ => ("token-" ++ email, User.mk ("id-" ++ email) email None None)%string)
    (Sample.ticking Sample.times).


Definition signed_out : Session.App := Session.mkApp None None [] 0.

(** ** The public interface of ChatApp *)

(** A call of one of the public methods of [ChatApp]: [login], [logout]
    and the nine room and message operations. *)
Inductive Public :=
| PublicLogin (email password : string)
| PublicLogout
| PublicCall (c : Call).

(** What a result raises, if anything. *)
Definition failure {A} (r : Result A) : option Error :=
  match r with
  | Ok _ => None
  | Err e => Some e
  end.

(** What a room or message call raises, if anything. *)
Definition raised env (user : option User.t) (c : Call) (w : World)
    : option Error :=
  match c with
  | CallCreateDirectRoom other => failure (fst (createDirectRoom env user other w))
  | CallCreateGroupRoom name ids => failure (fst (createGroupRoom env user name ids w))
  | CallGetRooms => failure (fst (getRooms env user w))
  | CallLeaveRoom roomId => failure (fst (leaveRoom env user roomId w))
  | CallSendMessage roomId content k =>
      failure (fst (sendMessage env user roomId content k w))
  | CallGetMessages roomId limit => failure (fst (getMessages env user roomId limit w))
  | CallMarkAsRead ids => failure (fst (markAsRead env user ids w))
  | CallGetUnreadCount roomId => failure (fst (getUnreadCount env user roomId w))
  | CallGetOnlineUsers roomId => failure (fst (getOnlineUsers env user roomId w))
  end.

(** What a public call raises, if anything, on an application in the
    session state [s] over the store [w]: [login] and [logout] act on the
    session, the other methods on the store with [this.user] as the
    caller. *)
Definition public_raised sv env (p : Public) (s : Session.App) (w : World)
    : option Error :=
  match p with
  | PublicLogin email password => failure (fst (Session.login sv email password s))
  | PublicLogout => failure (fst (Session.logout sv s))
  | PublicCall c => raised env (Session.user s) c w
  end.

(** A store of three rooms, [u2] being in the first and the last. *)
Definition three_rooms : World :=
  mkWorld
    [ ChatRoom.mk "a" "alpha" ChatRoom.group ["u1"; "u2"]
        "2024-05-01T08:00:00.000Z" "2024-05-02T09:00:00.000Z";
      ChatRoom.mk "b" "beta" ChatRoom.group ["u1"; "u3"]
        "2024-05-01T08:00:00.000Z" "2024-05-03T09:00:00.000Z";
      ChatRoom.mk "c" "gamma" ChatRoom.group ["u2"; "u3"]
        "2024-05-01T08:00:00.000Z" "2024-05-04T09:00:00.000Z" ]
    [] [] 0.

(** A store that refuses every request. *)
Definition store_down : Env :=
  mkEnv (fun _ _ => true) Sample.ids (Sample.ticking Sample.times).

(** * Properties *)

(** ** The order on strings *)

Lemma ascii_compare_refl (a : ascii) : Ascii.compare a a = Eq.
Proof. unfold Ascii.compare. apply N.compare_refl. Qed.

Lemma string_compare_refl (s : string) : String.compare s s = Eq.
Proof.
  induction s as [|a s IH]; simpl; [reflexivity|].
  now rewrite ascii_compare_refl.
Qed.

Lemma ascii_compare_lt_trans (a b c : ascii) :
  Ascii.compare a b = Lt -> Ascii.compare b c = Lt -> Ascii.compare a c = Lt.
Proof.
  unfold Ascii.compare. rewrite !N.compare_lt_iff. apply N.lt_trans.
Qed.

Lemma string_compare_lt_trans (s1 : string) :
  forall s2 s3,
    String.compare s1 s2 = Lt -> String.compare s2 s3 = Lt ->
    String.compare s1 s3 = Lt.
Proof.
  induction s1 as [|a s1 IH]; intros [|b s2] [|c s3]; simpl; try congruence.
  destruct (Ascii.compare a b) eqn:Hab; try congruence;
    destruct (Ascii.compare b c) eqn:Hbc; try congruence; intros H12 H23.
  - apply Ascii.compare_eq_iff in Hab, Hbc. subst.
    rewrite ascii_compare_refl. eauto.
  - apply Ascii.compare_eq_iff in Hab. subst. now rewrite Hbc.
  - apply Ascii.compare_eq_iff in Hbc. subst. now rewrite Hab.
  - now rewrite (ascii_compare_lt_trans _ _ _ Hab Hbc).
Qed.

Lemma js_lt_irrefl (a : string) : js_lt a a = false.
Proof. unfold js_lt, String.ltb. now rewrite string_compare_refl. Qed.

Lemma js_lt_asym (a b : string) : js_lt a b = true -> js_lt b a = false.
Proof.
  unfold js_lt, String.ltb. rewrite (String.compare_antisym a b).
  destruct (String.compare b a); simpl; congruence.
Qed.

Lemma js_lt_trans (a b c : string) :
  js_lt a b = true -> js_lt b c = true -> js_lt a c = true.
Proof.
  unfold js_lt, String.ltb. intros Hab Hbc.
  destruct (String.compare a b) eqn:E1; try discriminate.
  destruct (String.compare b c) eqn:E2; try discriminate.
  now rewrite (string_compare_lt_trans _ _ _ E1 E2).
Qed.

Lemma js_lt_total (a b : string) :
  js_lt a b = false -> js_lt b a = false -> a = b.
Proof.
  unfold js_lt, String.ltb. rewrite (String.compare_antisym a b).
  destruct (String.compare b a) eqn:E; simpl; try discriminate.
  intros _ _. symmetry. now apply String.compare_eq_iff.
Qed.

(** [b <= c] read as "not [c < b]" is transitive. *)
Lemma js_le_trans (a b c : string) :
  js_lt b a = false -> js_lt c b = false -> js_lt c a = false.
Proof.
  intros Hab Hbc. destruct (js_lt c a) eqn:Hca; [|reflexivity].
  destruct (js_lt a b) eqn:Hlt.
  - now rewrite (js_lt_trans _ _ _ Hca Hlt) in Hbc.
  - rewrite (js_lt_total _ _ Hlt Hab) in Hca. congruence.
Qed.

(** Sorting a pair does not depend on the order it was written in. *)
Lemma js_sort_pair_comm (a b : string) : js_sort [a; b] = js_sort [b; a].
Proof.
  unfold js_sort. simpl.
  destruct (js_lt b a) eqn:Hba, (js_lt a b) eqn:Hab; try reflexivity.
  - now rewrite (js_lt_asym _ _ Hba) in Hab.
  - now rewrite (js_lt_total _ _ Hab Hba).
Qed.

(** ** One request *)

Lemma list_eqb_refl (l : list string) : list_eqb l l = true.
Proof. unfold list_eqb. now destruct (list_eq_dec string_dec l l). Qed.

Lemma hd_error_firstn_1 {A} (l : list A) : hd_error (firstn 1 l) = hd_error l.
Proof. now destruct l. Qed.

Lemma findOne_room_run env (q : RoomWhere) (w : World) :
  findOne_room env q w
  = if rejects env (List.length (wire w)) (FindRooms q None (Some 1))
    then (Err ApiError, logged (FindRooms q None (Some 1)) false w)
    else (Ok (hd_error (filter (room_matches q) (chat_rooms w))),
          logged (FindRooms q None (Some 1)) true w).
Proof.
  unfold findOne_room, find_rooms, bind, ret, fetch, limit_param.
  destruct (rejects env _ _); [reflexivity|].
  unfold select, limited, ordered. now rewrite hd_error_firstn_1.
Qed.

Lemma findOne_message_run env (q : MessageWhere) (w : World) :
  findOne_message env q w
  = if rejects env (List.length (wire w)) (FindMessages q None (Some 1))
    then (Err ApiError, logged (FindMessages q None (Some 1)) false w)
    else (Ok (hd_error (filter (message_matches q) (messages w))),
          logged (FindMessages q None (Some 1)) true w).
Proof.
  unfold findOne_message, find_messages, bind, ret, fetch, limit_param.
  destruct (rejects env _ _); [reflexivity|].
  unfold select, limited, ordered. now rewrite hd_error_firstn_1.
Qed.

(** ** createDirectRoom *)

Lemma direct_query_comm (a b : string) : direct_query a b = direct_query b a.
Proof. unfold direct_query. now rewrite js_sort_pair_comm. Qed.

(** A successful [createDirectRoom] either returned the first direct room
    of the pair, leaving the rooms alone, or found none and appended the
    room it returns. *)
Lemma createDirectRoom_cases env (u : User.t) (other : string) (w w1 : World)
    (r1 : ChatRoom.t) :
  createDirectRoom env (Some u) other w = (Ok r1, w1) ->
  (hd_error (direct_rooms (User.id u) other w) = Some r1
   /\ chat_rooms w1 = chat_rooms w)
  \/ (direct_rooms (User.id u) other w = []
      /\ chat_rooms w1 = chat_rooms w ++ [r1]
      /\ room_matches (direct_query (User.id u) other) r1 = true).
Proof.
  unfold createDirectRoom, authenticated, find_rooms, bind, ret, fetch.
  fold (direct_query (User.id u) other).
  destruct (rejects env _ (FindRooms _ _ _)); [discriminate|].
  unfold select, limited, ordered, limit_param.
  fold (direct_rooms (User.id u) other w).
  destruct (direct_rooms (User.id u) other w) as [|r rs] eqn:Hd.
  - unfold now, create_room, fetch. cbn [wire logged clock_reads chat_rooms].
    destruct (rejects env _ (CreateRoom _ _ _ _ _)); [discriminate|].
    intros H. injection H as <- <-. right. cbn.
    rewrite list_eqb_refl. auto.
  - intros H. injection H as <- <-. left. auto.
Qed.

(** C1. Direct-room creation is idempotent.  Once [createDirectRoom],
    called by A for B, has returned a room, the call by B for A on the
    resulting store creates nothing, whatever the store answers; it issues
    the same lookup and, when that lookup is answered, returns the very
    room of the first call and sends nothing else.  The first call itself
    added a room for the pair only if there was none. *)
Theorem createDirectRoom_idempotent env (A B : User.t) (w w1 : World)
    (r1 : ChatRoom.t) :
  createDirectRoom env (Some A) (User.id B) w = (Ok r1, w1) ->
  let again := createDirectRoom env (Some B) (User.id A) w1 in
  let lookup := FindRooms (direct_query (User.id B) (User.id A)) None None in
  chat_rooms (snd again) = chat_rooms w1
  /\ (fst again = Ok r1 \/ fst again = Err ApiError)
  /\ (rejects env (List.length (wire w1)) lookup = false ->
      again = (Ok r1, logged lookup true w1))
  /\ List.length (direct_rooms (User.id A) (User.id B) w1)
     <= Nat.max 1 (List.length (direct_rooms (User.id A) (User.id B) w)).
Proof.
  intros H1 again lookup.
  assert (Hhd : hd_error (direct_rooms (User.id B) (User.id A) w1) = Some r1).
  { unfold direct_rooms. rewrite <- direct_query_comm.
    destruct (@createDirectRoom_cases _ _ _ _ _ _ H1)
      as [[Hhd Hc]|(Hn & Hc & Hm)]; rewrite Hc.
    - exact Hhd.
    - rewrite filter_app. unfold direct_rooms in Hn. rewrite Hn.
      cbn [filter app]. now rewrite Hm. }
  assert (Hlen : List.length (direct_rooms (User.id A) (User.id B) w1)
     <= Nat.max 1 (List.length (direct_rooms (User.id A) (User.id B) w))).
  { unfold direct_rooms.
    destruct (@createDirectRoom_cases _ _ _ _ _ _ H1)
      as [[_ Hc]|(Hn & Hc & Hm)]; rewrite Hc.
    - lia.
    - rewrite filter_app. unfold direct_rooms in Hn. rewrite Hn.
      cbn [filter app]. rewrite Hm. cbn. lia. }
  subst again lookup.
  unfold createDirectRoom, authenticated, find_rooms, bind, ret, fetch.
  fold (direct_query (User.id B) (User.id A)).
  destruct (rejects env _ (FindRooms _ _ _)) eqn:Hrej.
  - cbn. repeat split; auto. congruence.
  - unfold select, limited, ordered, limit_param.
    fold (direct_rooms (User.id B) (User.id A) w1).
    destruct (direct_rooms (User.id B) (User.id A) w1) as [|r rs];
      cbn in Hhd; [discriminate|].
    injection Hhd as ->. cbn. repeat split; auto.
Qed.

(** Scenario 1: [u1] opens the room with [u2] on the empty store, then
    [u2] asks for the room with [u1] and gets the same one. *)
Lemma createDirectRoom_idempotent_witness :
  createDirectRoom Sample.up (Some Sample.u1) "u2" Sample.empty
  = (Ok Sample.pair_room, Sample.paired)
  /\ createDirectRoom Sample.up (Some Sample.u2) "u1" Sample.paired
     = (Ok Sample.pair_room,
        logged (FindRooms (direct_query "u2" "u1") None None) true Sample.paired).
Proof.
  assert (H : createDirectRoom Sample.up (Some Sample.u1) (User.id Sample.u2)
                Sample.empty
              = (Ok Sample.pair_room, Sample.paired)) by reflexivity.
  split; [exact H|].
  apply (createDirectRoom_idempotent Sample.up Sample.u1 Sample.u2
           Sample.empty Sample.paired Sample.pair_room H).
  reflexivity.
Defined.

(** ** Lookups by id *)

Lemma hd_filter_update_first {A} (hit : A -> bool) (f : A -> A) (l : list A) :
  (forall x, hit (f x) = hit x) ->
  hd_error (filter hit (update_first hit f l))
  = option_map f (hd_error (filter hit l)).
Proof.
  intros Hf. induction l as [|x l IH]; cbn; [reflexivity|].
  destruct (hit x) eqn:Hx; cbn.
  - now rewrite Hf, Hx.
  - now rewrite Hx.
Qed.

Lemma update_first_absent {A} (hit : A -> bool) (f : A -> A) (l : list A) :
  filter hit l = [] -> update_first hit f l = l.
Proof.
  induction l as [|x l IH]; cbn; [reflexivity|].
  destruct (hit x); [discriminate|]. intros H. now rewrite IH.
Qed.

Lemma patch_room_id (p : RoomPatch) (r : ChatRoom.t) :
  ChatRoom.id (patch_room p r) = ChatRoom.id r.
Proof. now destruct p. Qed.

Lemma patch_message_id (p : MessagePatch) (m : Message.t) :
  Message.id (patch_message p m) = Message.id m.
Proof. now destruct p. Qed.

(** ** The fan-out loop *)

Lemma with_wire_nil (w : World) : with_wire w [] = w.
Proof. destruct w. unfold with_wire. cbn. now rewrite app_nil_r. Qed.

Lemma with_wire_app (w : World) (l1 l2 : list (Request * bool)) :
  with_wire (with_wire w l1) l2 = with_wire w (l1 ++ l2).
Proof. unfold with_wire. cbn. now rewrite app_assoc. Qed.

Lemma notify_send_run env (n : Notification.t) (w : World) :
  notify_send env n w
  = if rejects env (List.length (wire w)) (Send n)
    then (Err ApiError, with_wire w [(Send n, false)])
    else (Ok tt, with_wire w [(Send n, true)]).
Proof.
  unfold notify_send, fetch. now destruct (rejects env _ _).
Qed.


Lemma fanout_reliable env u roomId m (l : list string) :
  reliable env ->
  forall w, fanout env u roomId m l w
            = (Ok tt, with_wire w (delivered u roomId m l)).
Proof.
  intros Hup. induction l as [|x l IH]; intros w; cbn.
  - unfold ret. now rewrite with_wire_nil.
  - unfold bind. rewrite notify_send_run, Hup.
    fold (fanout env u roomId m l). now rewrite IH, with_wire_app.
Qed.

Lemma fanout_result env u roomId m (l : list string) :
  forall w, fst (fanout env u roomId m l w) = Ok tt
            \/ fst (fanout env u roomId m l w) = Err ApiError.
Proof.
  induction l as [|x l IH]; intros w; cbn; [now left|].
  unfold bind. rewrite notify_send_run.
  destruct (rejects env _ _); [now right|apply IH].
Qed.

(** ** notifyMembers and sendMessage, request by request *)

Lemma notifyMembers_run env (u : User.t) (roomId : string) (m : Message.t)
    (w : World) :
  let find := FindRooms (RoomId roomId) None (Some 1) in
  notifyMembers env u roomId m w
  = if rejects env (List.length (wire w)) find
    then (Err ApiError, with_wire w [(find, false)])
    else match room_of roomId w with
         | None => (Ok tt, with_wire w [(find, true)])
         | Some room =>
             fanout env u roomId m
                    (without (User.id u) (ChatRoom.members room))
                    (with_wire w [(find, true)])
         end.
Proof.
  cbv zeta. unfold notifyMembers, bind. rewrite findOne_room_run.
  destruct (rejects env _ _); [reflexivity|].
  fold (room_of roomId w). now destruct (room_of roomId w).
Qed.

Lemma sendMessage_run env (u : User.t) (roomId : string) (content : utf16)
    (k : Message.kind) (w : World) :
  let n := List.length (wire w) in
  let m := posted env u roomId content k w in
  let create := create_of env u roomId content k w in
  let touch := touch_of env roomId w in
  sendMessage env (Some u) roomId content k w
  = if rejects env n create
    then (Err ApiError,
          mkWorld (chat_rooms w) (messages w) (wire w ++ [(create, false)])
                  (S (clock_reads w)))
    else if rejects env (S n) touch
    then (Err ApiError,
          mkWorld (chat_rooms w) (messages w ++ [m])
                  (wire w ++ [(create, true); (touch, false)])
                  (S (clock_reads w)))
    else match notifyMembers env u roomId m (stored env u roomId content k w) with
         | (Ok _, w') => (Ok m, w')
         | (Err e, w') => (Err e, w')
         end.
Proof.
  cbv zeta.
  unfold sendMessage, authenticated, bind, ret, now, create_message,
    update_room, fetch, create_of, touch_of, stored, posted, logged, serve.
  cbn [wire chat_rooms messages clock_reads Message.createdAt].
  destruct (rejects env (List.length (wire w)) _); [reflexivity|].
  cbn [wire chat_rooms messages clock_reads Message.createdAt].
  rewrite length_app. cbn [List.length]. rewrite Nat.add_1_r.
  destruct (rejects env (S (List.length (wire w))) _).
  - cbn [wire chat_rooms messages clock_reads]. now rewrite <- app_assoc.
  - cbn [wire chat_rooms messages clock_reads]. rewrite <- app_assoc. cbn [app].
    now destruct (notifyMembers env u roomId _ _) as [[[]|e] w'].
Qed.

Lemma room_of_stored env (u : User.t) (roomId : string) (content : utf16)
    (k : Message.kind) (w : World) :
  room_of roomId (stored env u roomId content k w)
  = option_map (patch_room (SetLastMessageAt (clock env (clock_reads w))))
               (room_of roomId w).
Proof.
  unfold room_of, stored. cbn [chat_rooms room_matches].
  apply hd_filter_update_first. intros x. now rewrite patch_room_id.
Qed.

Lemma issued_with_wire (w : World) (l : list (Request * bool)) :
  issued w (with_wire w l) = l.
Proof.
  unfold issued, with_wire. cbn [wire].
  rewrite skipn_app, skipn_all, Nat.sub_diag. reflexivity.
Qed.

Lemma issued_stored env (u : User.t) (roomId : string) (content : utf16)
    (k : Message.kind) (w : World) (l : list (Request * bool)) :
  issued w (with_wire (stored env u roomId content k w) l)
  = (create_of env u roomId content k w, true)
    :: (touch_of env roomId w, true) :: l.
Proof.
  unfold issued, with_wire, stored. cbn [wire].
  rewrite <- app_assoc, skipn_app, skipn_all, Nat.sub_diag. reflexivity.
Qed.

Lemma sends_app (l1 l2 : list (Request * bool)) :
  sends (l1 ++ l2) = sends l1 ++ sends l2.
Proof.
  induction l1 as [|[r ok] l1 IH]; [reflexivity|].
  destruct r; cbn; rewrite IH; reflexivity.
Qed.

Lemma sends_delivered (u : User.t) (roomId : string) (m : Message.t)
    (l : list string) :
  sends (delivered u roomId m l)
  = map (fun x => (notification u roomId m x, true)) l.
Proof.
  unfold delivered. induction l as [|x l IH]; cbn; [reflexivity|].
  now rewrite IH.
Qed.

Lemma in_without (u x : string) (l : list string) :
  In x (without u l) <-> In x l /\ x <> u.
Proof.
  unfold without. rewrite filter_In, negb_true_iff, String.eqb_neq. tauto.
Qed.

Lemma NoDup_without (u : string) (l : list string) :
  NoDup l -> NoDup (without u l).
Proof. apply NoDup_filter. Qed.



Lemma sendMessage_reliable env (u : User.t) (roomId : string) (content : utf16)
    (k : Message.kind) (room : ChatRoom.t) (w : World) :
  reliable env ->
  room_of roomId w = Some room ->
  sendMessage env (Some u) roomId content k w
  = (Ok (posted env u roomId content k w),
     fanned_out env u roomId content k room w).
Proof.
  intros Hup Hroom. rewrite sendMessage_run. cbv zeta. rewrite !Hup.
  rewrite notifyMembers_run. cbv zeta. rewrite Hup.
  rewrite room_of_stored, Hroom. cbn [option_map patch_room ChatRoom.members].
  rewrite (fanout_reliable _ _ _ _ _ Hup), with_wire_app. reflexivity.
Qed.



(** ** What the fan-out leaves alone *)

Lemma fanout_frame env u roomId m (l : list string) :
  forall w, let w' := snd (fanout env u roomId m l w) in
            chat_rooms w' = chat_rooms w /\ messages w' = messages w.
Proof.
  induction l as [|x l IH]; intros w; cbn; [auto|].
  unfold bind. rewrite notify_send_run.
  destruct (rejects env _ _); [cbn; auto|].
  destruct (IH (with_wire w [(Send (notification u roomId m x), true)]))
    as [H1 H2].
  exact (conj H1 H2).
Qed.

Lemma notifyMembers_frame env (u : User.t) (roomId : string) (m : Message.t)
    (w : World) :
  let w' := snd (notifyMembers env u roomId m w) in
  chat_rooms w' = chat_rooms w /\ messages w' = messages w.
Proof.
  cbv zeta. rewrite notifyMembers_run. cbv zeta.
  destruct (rejects env _ _); [cbn; auto|].
  destruct (room_of roomId w) as [room|]; [|cbn; auto].
  apply (fanout_frame env u roomId m _ (with_wire w _)).
Qed.

Lemma notifyMembers_result env (u : User.t) (roomId : string) (m : Message.t)
    (w : World) :
  fst (notifyMembers env u roomId m w) = Ok tt
  \/ fst (notifyMembers env u roomId m w) = Err ApiError.
Proof.
  rewrite notifyMembers_run. cbv zeta.
  destruct (rejects env _ _); [now right|].
  destruct (room_of roomId w) as [room|]; [|now left].
  apply fanout_result.
Qed.

(** A [sendMessage] whose create and update requests were accepted has
    stored the message and touched the room, however the fan-out ends. *)
Lemma sendMessage_stored env (u : User.t) (roomId : string) (content : utf16)
    (k : Message.kind) (w : World) :
  rejects env (List.length (wire w)) (create_of env u roomId content k w) = false ->
  rejects env (S (List.length (wire w))) (touch_of env roomId w) = false ->
  let w' := snd (sendMessage env (Some u) roomId content k w) in
  chat_rooms w' = chat_rooms (stored env u roomId content k w)
  /\ messages w' = messages w ++ [posted env u roomId content k w].
Proof.
  intros Hc Ht. cbv zeta. rewrite sendMessage_run. cbv zeta. rewrite Hc, Ht.
  pose proof (notifyMembers_frame env u roomId (posted env u roomId content k w)
                (stored env u roomId content k w)) as H.
  cbv zeta in H.
  destruct (notifyMembers env u roomId _ _) as [[[]|e] w3]; exact H.
Qed.

(** ** A failing notifier call *)

Lemma fanout_down env u roomId m (x : string) (l : list string) :
  notifier_down_for x env ->
  In x l ->
  forall w,
    fanout env u roomId m l w
    = (Err ApiError,
       with_wire w (delivered u roomId m (before x l)
                    ++ [(Send (notification u roomId m x), false)])).
Proof.
  intros Hdown. induction l as [|y l IH]; intros Hin w; [destruct Hin|].
  cbn [fanout for_each before]. unfold bind. rewrite notify_send_run, Hdown.
  cbn [notification Notification.userId].
  destruct (String.eqb_spec y x) as [->|Hne].
  - reflexivity.
  - destruct Hin as [->|Hin]; [congruence|].
    fold (fanout env u roomId m l). rewrite (IH Hin), with_wire_app.
    reflexivity.
Qed.

(** C2, as the code has it.  The fan-out is a plain sequential loop: when
    the notifier refuses the call for one recipient [x] of an existing
    room, the members listed before [x] have been notified, no call is
    made for those after it, and [sendMessage] fails with the client's
    error instead of returning the message, which is nevertheless stored. *)
Theorem sendMessage_fanout_stops_at_failure env (u : User.t)
    (roomId : string) (content : utf16) (k : Message.kind) (room : ChatRoom.t)
    (x : string) (w : World) :
  room_of roomId w = Some room ->
  notifier_down_for x env ->
  In x (without (User.id u) (ChatRoom.members room)) ->
  let others := without (User.id u) (ChatRoom.members room) in
  let m := posted env u roomId content k w in
  let r := sendMessage env (Some u) roomId content k w in
  fst r = Err ApiError
  /\ sends (issued w (snd r))
     = map (fun y => (notification u roomId m y, true)) (before x others)
       ++ [(notification u roomId m x, false)]
  /\ messages (snd r) = messages w ++ [m].
Proof.
  intros Hroom Hdown Hin others m r. subst r.
  assert (Hstore : forall n, rejects env n (create_of env u roomId content k w) = false
                    /\ rejects env n (touch_of env roomId w) = false
                    /\ rejects env n (FindRooms (RoomId roomId) None (Some 1)) = false).
  { intros n. rewrite !Hdown. auto. }
  rewrite sendMessage_run. cbv zeta.
  rewrite (proj1 (Hstore _)), (proj1 (proj2 (Hstore _))).
  rewrite notifyMembers_run. cbv zeta. rewrite (proj2 (proj2 (Hstore _))).
  rewrite room_of_stored, Hroom. cbn [option_map patch_room ChatRoom.members].
  rewrite (fanout_down _ _ _ _ _ _ Hdown Hin), with_wire_app.
  cbn [fst snd]. split; [reflexivity|]. split; [|reflexivity].
  rewrite issued_stored. cbn [sends app]. rewrite sends_app, sends_delivered.
  reflexivity.
Qed.

Lemma sendMessage_fanout_stops_at_failure_witness :
  room_of "r1" Sample.office = Some Sample.team
  /\ fst (sendMessage (Sample.down_for "u3") (Some Sample.u1) "r1" (units "hello")
                      Message.text Sample.office)
     = Err ApiError.
Proof.
  assert (Hroom : room_of "r1" Sample.office = Some Sample.team) by reflexivity.
  split; [exact Hroom|].
  apply (sendMessage_fanout_stops_at_failure (Sample.down_for "u3") Sample.u1
           "r1" (units "hello") Message.text Sample.team "u3" Sample.office Hroom).
  - intros n req. reflexivity.
  - cbn. auto.
Defined.

(** C2 fails as stated: in a group of three, with the notifier refusing
    the call for [u2], the send by [u1] fails and [u3] is never called. *)
Lemma sendMessage_fanout_not_best_effort :
  let r := sendMessage (Sample.down_for "u2") (Some Sample.u1) "r1" (units "hello")
                       Message.text Sample.office in
  room_of "r1" Sample.office = Some Sample.team
  /\ fst r = Err ApiError
  /\ map (fun s => (Notification.userId (fst s), snd s))
         (sends (issued Sample.office (snd r)))
     = [("u2", false)].
Proof. vm_compute. auto. Qed.

(** ** sendMessage: content, timestamp, missing room *)

Lemma sendMessage_appends env (u : User.t) (roomId : string) (content : utf16)
    (k : Message.kind) (w : World) :
  rejects env (List.length (wire w)) (create_of env u roomId content k w) = false ->
  messages (snd (sendMessage env (Some u) roomId content k w))
  = messages w ++ [posted env u roomId content k w].
Proof.
  intros Hc. rewrite sendMessage_run. cbv zeta. rewrite Hc.
  destruct (rejects env (S _) _); [reflexivity|].
  pose proof (notifyMembers_frame env u roomId (posted env u roomId content k w)
                (stored env u roomId content k w)) as [_ H].
  destruct (notifyMembers env u roomId _ _) as [[[]|e] w3]; exact H.
Qed.

(** With every service up, [sendMessage] returns the message it stored,
    whether the room exists or not. *)
Lemma sendMessage_up env (u : User.t) (roomId : string) (content : utf16)
    (k : Message.kind) (w : World) :
  reliable env ->
  fst (sendMessage env (Some u) roomId content k w)
  = Ok (posted env u roomId content k w).
Proof.
  intros Hup. rewrite sendMessage_run. cbv zeta. rewrite !Hup.
  rewrite notifyMembers_run. cbv zeta. rewrite Hup.
  destruct (room_of roomId (stored env u roomId content k w)) as [room|];
    [|reflexivity].
  now rewrite (fanout_reliable _ _ _ _ _ Hup).
Qed.

(** C3, as the code has it.  [sendMessage] does not look at the content:
    with empty content it sends the same create request as for any other;
    once the store accepts it the message with empty content is in the
    store, and with every service up that message is returned. *)
Theorem sendMessage_accepts_empty_content env (u : User.t) (roomId : string)
    (k : Message.kind) (w : World) :
  let r := sendMessage env (Some u) roomId [] k w in
  let m := Message.mk (assign_id env (List.length (wire w))) roomId (User.id u)
                      [] k [User.id u] (clock env (clock_reads w)) in
  (rejects env (List.length (wire w))
           (CreateMessage roomId (User.id u) [] k [User.id u]
                          (clock env (clock_reads w))) = false ->
   messages (snd r) = messages w ++ [m])
  /\ (reliable env -> fst r = Ok m).
Proof.
  cbv zeta. split.
  - apply sendMessage_appends.
  - apply sendMessage_up.
Qed.

Lemma sendMessage_accepts_empty_content_witness :
  messages (snd (sendMessage Sample.up (Some Sample.u1) "r1" [] Message.text
                             Sample.office))
  = [Sample.hi; Sample.yo;
     Message.mk "id0" "r1" "u1" [] Message.text ["u1"]
                "2024-05-01T10:00:00.000Z"].
Proof.
  apply (proj1 (sendMessage_accepts_empty_content Sample.up Sample.u1 "r1"
                  Message.text Sample.office)).
  reflexivity.
Defined.

(** C3 fails as stated: an empty message is stored and returned. *)
Lemma sendMessage_empty_content_is_stored :
  let r := sendMessage Sample.up (Some Sample.u1) "r1" [] Message.text
                       Sample.office in
  let m := Message.mk "id0" "r1" "u1" [] Message.text ["u1"]
                      "2024-05-01T10:00:00.000Z" in
  fst r = Ok m /\ messages (snd r) = [Sample.hi; Sample.yo; m].
Proof. vm_compute. auto. Qed.

(** C4, as the code has it.  [sendMessage] overwrites [lastMessageAt] of
    the room with the creation time of the new message, without comparing
    it with the value it replaces; the other fields of the room stay. *)
Theorem sendMessage_overwrites_lastMessageAt env (u : User.t)
    (roomId : string) (content : utf16) (k : Message.kind) (room : ChatRoom.t)
    (w : World) :
  room_of roomId w = Some room ->
  rejects env (List.length (wire w)) (create_of env u roomId content k w) = false ->
  rejects env (S (List.length (wire w))) (touch_of env roomId w) = false ->
  room_of roomId (snd (sendMessage env (Some u) roomId content k w))
  = Some (ChatRoom.mk (ChatRoom.id room) (ChatRoom.name room)
            (ChatRoom.type room) (ChatRoom.members room)
            (ChatRoom.createdAt room)
            (Message.createdAt (posted env u roomId content k w))).
Proof.
  intros Hroom Hc Ht.
  destruct (sendMessage_stored env u roomId content k w Hc Ht) as [Hr _].
  unfold room_of at 1. rewrite Hr.
  fold (room_of roomId (stored env u roomId content k w)).
  now rewrite room_of_stored, Hroom.
Qed.

Lemma sendMessage_overwrites_lastMessageAt_witness :
  room_of "r1" Sample.office = Some Sample.team
  /\ option_map ChatRoom.lastMessageAt
       (room_of "r1" (snd (sendMessage Sample.up (Some Sample.u1) "r1" (units "hello")
                                       Message.text Sample.office)))
     = Some "2024-05-01T10:00:00.000Z".
Proof.
  assert (Hroom : room_of "r1" Sample.office = Some Sample.team) by reflexivity.
  split; [exact Hroom|].
  rewrite (sendMessage_overwrites_lastMessageAt Sample.up Sample.u1 "r1" (units "hello")
             Message.text Sample.team Sample.office Hroom eq_refl eq_refl).
  reflexivity.
Defined.

(** C4 fails as stated: the sender's clock is a day behind the room's
    last activity, and the send moves [lastMessageAt] back. *)
Lemma sendMessage_moves_lastMessageAt_back :
  let w' := snd (sendMessage Sample.up (Some Sample.u1) "r1" (units "hello")
                             Message.text Sample.office) in
  option_map ChatRoom.lastMessageAt (room_of "r1" Sample.office)
  = Some "2024-05-02T09:30:00.000Z"
  /\ option_map ChatRoom.lastMessageAt (room_of "r1" w')
     = Some "2024-05-01T10:00:00.000Z"
  /\ js_lt "2024-05-01T10:00:00.000Z" "2024-05-02T09:30:00.000Z" = true.
Proof. vm_compute. auto. Qed.

(** ** The errors sendMessage can raise *)

Lemma sendMessage_errors env (user : option User.t) (roomId : string) (content : utf16)
    (k : Message.kind) (w : World) :
  fst (sendMessage env user roomId content k w) <> Err RoomNotFound.
Proof.
  destruct user as [u|]; [|discriminate].
  rewrite sendMessage_run. cbv zeta.
  destruct (rejects env _ _); [discriminate|].
  destruct (rejects env _ _); [discriminate|].
  destruct (notifyMembers_result env u roomId (posted env u roomId content k w)
              (stored env u roomId content k w)) as [H|H];
    destruct (notifyMembers env u roomId _ _) as [[[]|e] w3]; cbn in *;
    congruence.
Qed.

(** C5, as the code has it.  For a room id the store does not know,
    [sendMessage] never raises the room-not-found error: the member lookup
    comes back empty and [notifyMembers] returns without a word.  No
    notifier call is made, and once the store has answered the three
    requests of the call the message is returned, stored under a [roomId]
    that refers to no room, and the rooms are as before. *)
Theorem sendMessage_to_missing_room env (u : User.t) (roomId : string) (content : utf16)
    (k : Message.kind) (w : World) :
  room_of roomId w = None ->
  let n := List.length (wire w) in
  let m := posted env u roomId content k w in
  let create := create_of env u roomId content k w in
  let touch := touch_of env roomId w in
  let find := FindRooms (RoomId roomId) None (Some 1) in
  let r := sendMessage env (Some u) roomId content k w in
  fst r <> Err RoomNotFound
  /\ sends (issued w (snd r)) = []
  /\ (rejects env n create = false ->
      rejects env (S n) touch = false ->
      rejects env (S (S n)) find = false ->
      r = (Ok m,
           mkWorld (chat_rooms w) (messages w ++ [m])
                   (wire w ++ [(create, true); (touch, true); (find, true)])
                   (S (clock_reads w)))).
Proof.
  intros Hroom n m create touch find r.
  assert (Habs : filter (fun r => ChatRoom.id r =? roomId) (chat_rooms w) = []).
  { unfold room_of in Hroom. cbn [room_matches] in Hroom.
    destruct (filter _ (chat_rooms w)); [reflexivity|discriminate]. }
  assert (Hwire : List.length (wire (stored env u roomId content k w)) = S (S n)).
  { unfold stored. cbn [wire]. rewrite length_app. cbn. subst n. lia. }
  split; [apply sendMessage_errors|].
  subst r. rewrite sendMessage_run. cbv zeta. fold n m create touch.
  unfold issued.
  destruct (rejects env n create).
  { cbn [snd wire]. rewrite skipn_app, skipn_all, Nat.sub_diag.
    split; [reflexivity|discriminate]. }
  destruct (rejects env (S n) touch).
  { cbn [snd wire]. rewrite skipn_app, skipn_all, Nat.sub_diag.
    split; [reflexivity|discriminate]. }
  rewrite notifyMembers_run. cbv zeta. rewrite Hwire. fold find.
  rewrite room_of_stored, Hroom. cbn [option_map].
  destruct (rejects env (S (S n)) find).
  - unfold with_wire, stored. cbn [snd wire]. fold create touch.
    rewrite <- app_assoc, skipn_app, skipn_all, Nat.sub_diag.
    split; [reflexivity|discriminate].
  - unfold with_wire, stored. cbn [snd wire chat_rooms messages clock_reads].
    fold create touch m.
    rewrite <- app_assoc, skipn_app, skipn_all, Nat.sub_diag.
    split; [reflexivity|]. intros _ _ _.
    rewrite (update_first_absent _ _ _ Habs). reflexivity.
Qed.

Lemma sendMessage_to_missing_room_witness :
  room_of "r9" Sample.office = None
  /\ fst (sendMessage Sample.up (Some Sample.u1) "r9" (units "hello") Message.text
                      Sample.office)
     <> Err RoomNotFound.
Proof.
  assert (Hroom : room_of "r9" Sample.office = None) by reflexivity.
  split; [exact Hroom|].
  apply (sendMessage_to_missing_room Sample.up Sample.u1 "r9" (units "hello")
           Message.text Sample.office Hroom).
Defined.

(** C5 fails as stated: a send to a room that does not exist succeeds. *)
Lemma sendMessage_to_missing_room_succeeds :
  room_of "r9" Sample.office = None
  /\ fst (sendMessage Sample.up (Some Sample.u1) "r9" (units "hello") Message.text
                      Sample.office)
     = Ok (Message.mk "id0" "r9" "u1" (units "hello") Message.text ["u1"]
                      "2024-05-01T10:00:00.000Z").
Proof. vm_compute. auto. Qed.

(** ** leaveRoom *)

Lemma leaveRoom_run env (u : User.t) (roomId : string) (w : World) :
  let n := List.length (wire w) in
  let find := FindRooms (RoomId roomId) None (Some 1) in
  leaveRoom env (Some u) roomId w
  = if rejects env n find
    then (Err ApiError, with_wire w [(find, false)])
    else match room_of roomId w with
         | None => (Err RoomNotFound, with_wire w [(find, true)])
         | Some room =>
             let ms := without (User.id u) (ChatRoom.members room) in
             let write := match ms with
                          | [] => DeleteRoom roomId
                          | _ :: _ => UpdateRoom roomId (SetMembers ms)
                          end in
             if rejects env (S n) write
             then (Err ApiError, with_wire w [(find, true); (write, false)])
             else (Ok tt,
                   mkWorld
                     (match ms with
                      | [] => filter (fun r => negb (ChatRoom.id r =? roomId))
                                     (chat_rooms w)
                      | _ :: _ => update_first (fun r => ChatRoom.id r =? roomId)
                                    (with_members ms) (chat_rooms w)
                      end)
                     (messages w)
                     (wire w ++ [(find, true); (write, true)])
                     (clock_reads w))
         end.
Proof.
  cbv zeta. unfold leaveRoom, authenticated, bind, ret.
  rewrite findOne_room_run.
  destruct (rejects env _ _); [reflexivity|].
  fold (room_of roomId w). destruct (room_of roomId w) as [room|];
    [|reflexivity].
  unfold delete_room, update_room, fetch, logged, throw, with_wire, with_members.
  destruct (without (User.id u) (ChatRoom.members room)) as [|y ys];
    cbn [wire chat_rooms messages clock_reads];
    rewrite length_app; cbn [List.length]; rewrite Nat.add_1_r;
    destruct (rejects env _ _); cbn [wire chat_rooms messages clock_reads serve];
    rewrite <- app_assoc; reflexivity.
Qed.

Lemma room_of_deleted (roomId : string) (l : list ChatRoom.t)
    (ms : list Message.t) (wr : list (Request * bool)) (c : nat) :
  room_of roomId
    (mkWorld (filter (fun r => negb (ChatRoom.id r =? roomId)) l) ms wr c)
  = None.
Proof.
  unfold room_of. cbn [chat_rooms].
  induction l as [|r l IH]; cbn; [reflexivity|].
  destruct (ChatRoom.id r =? roomId) eqn:E; cbn; [exact IH|].
  now rewrite E.
Qed.

Lemma room_of_updated (roomId : string) (p : RoomPatch) (l : list ChatRoom.t)
    (ms : list Message.t) (wr : list (Request * bool)) (c : nat) :
  room_of roomId
    (mkWorld (update_first (fun r => ChatRoom.id r =? roomId) (patch_room p) l)
             ms wr c)
  = option_map (patch_room p)
               (hd_error (filter (room_matches (RoomId roomId)) l)).
Proof.
  unfold room_of. cbn [chat_rooms].
  apply hd_filter_update_first. intros x. cbn. now rewrite patch_room_id.
Qed.

Lemma Forall_update_first {A} (P : A -> Prop) (hit : A -> bool) (f : A -> A)
    (l : list A) :
  (forall x, P x -> P (f x)) -> Forall P l -> Forall P (update_first hit f l).
Proof.
  intros Hf. induction 1 as [|x l Hx Hl IH]; cbn; [constructor|].
  destruct (hit x); constructor; auto.
Qed.

Lemma Forall_filter_keep {A} (P : A -> Prop) (keep : A -> bool) (l : list A) :
  Forall P l -> Forall P (filter keep l).
Proof.
  induction 1 as [|x l Hx Hl IH]; cbn; [constructor|].
  destruct (keep x); [constructor|]; auto.
Qed.

Lemma leaveRoom_keeps_no_empty_room env (user : option User.t)
    (roomId : string) (w : World) :
  no_empty_room w -> no_empty_room (snd (leaveRoom env user roomId w)).
Proof.
  unfold no_empty_room. intros Hinv.
  destruct user as [u|]; [|exact Hinv].
  rewrite leaveRoom_run. cbv zeta.
  destruct (rejects env _ _); [exact Hinv|].
  destruct (room_of roomId w) as [room|]; [|exact Hinv].
  destruct (rejects env _ _); [exact Hinv|].
  cbn [snd chat_rooms].
  destruct (without (User.id u) (ChatRoom.members room)) as [|y ys].
  - now apply Forall_filter_keep.
  - apply Forall_update_first; [|exact Hinv]. intros r _. discriminate.
Qed.

Lemma leave_all_keeps_no_empty_room env (calls : list (option User.t * string)) :
  forall w, no_empty_room w -> no_empty_room (leave_all env calls w).
Proof.
  induction calls as [|[user roomId] calls IH]; intros w Hinv; [exact Hinv|].
  apply IH. now apply leaveRoom_keeps_no_empty_room.
Qed.

(** *** A room left by its members one after the other *)

Lemma leaveRoom_up env (u : User.t) (roomId : string) (w : World) :
  reliable env ->
  room_of roomId (snd (leaveRoom env (Some u) roomId w))
  = match room_of roomId w with
    | None => None
    | Some room =>
        match without (User.id u) (ChatRoom.members room) with
        | [] => None
        | ms => Some (with_members ms room)
        end
    end.
Proof.
  intros Hup. rewrite leaveRoom_run. cbv zeta. rewrite Hup.
  destruct (room_of roomId w) as [room|] eqn:Hroom; [|exact Hroom].
  rewrite Hup. cbn [snd].
  destruct (without (User.id u) (ChatRoom.members room)) as [|y ys].
  - apply room_of_deleted.
  - unfold with_members. rewrite room_of_updated.
    unfold room_of in Hroom. now rewrite Hroom.
Qed.

Lemma without_all_nil (us : list User.t) : without_all us [] = [].
Proof. induction us as [|u us IH]; [reflexivity|exact IH]. Qed.

Lemma without_all_cons (u : User.t) (us : list User.t) (ms : list string) :
  without_all (u :: us) ms = without_all us (without (User.id u) ms).
Proof. reflexivity. Qed.

Lemma with_members_id (r : ChatRoom.t) : with_members (ChatRoom.members r) r = r.
Proof. now destruct r. Qed.

Lemma leave_all_tracks env (roomId : string) (us : list User.t) :
  reliable env ->
  forall w,
    room_of roomId (leave_all env (map (fun u => (Some u, roomId)) us) w)
    = match room_of roomId w with
      | None => None
      | Some room =>
          match us, without_all us (ChatRoom.members room) with
          | [], _ => Some room
          | _ :: _, [] => None
          | _ :: _, ms => Some (with_members ms room)
          end
      end.
Proof.
  intros Hup. induction us as [|u us IH]; intros w.
  - cbn. now destruct (room_of roomId w).
  - cbn [map leave_all fold_left fst snd].
    fold (leave_all env (map (fun u => (Some u, roomId)) us)
            (snd (leaveRoom env (Some u) roomId w))).
    rewrite IH, (leaveRoom_up _ _ _ _ Hup).
    destruct (room_of roomId w) as [room|]; [|reflexivity].
    rewrite without_all_cons.
    destruct (without (User.id u) (ChatRoom.members room)) as [|y ys] eqn:E.
    + now rewrite without_all_nil.
    + destruct us as [|u' us']; [reflexivity|].
      change (ChatRoom.members (with_members (y :: ys) room)) with (y :: ys).
      destruct (without_all (u' :: us') (y :: ys)); reflexivity.
Qed.

Lemma without_nil (x : string) (l : list string) :
  (forall y, In y l -> y = x) -> without x l = [].
Proof.
  intros H. destruct (without x l) as [|y ys] eqn:E; [reflexivity|].
  assert (Hy : In y (without x l)) by (rewrite E; now left).
  apply in_without in Hy. destruct Hy as [Hy Hne]. now apply H in Hy.
Qed.

Lemma without_all_filter (us : list User.t) :
  forall ms,
    without_all us ms
    = filter (fun x => negb (existsb (fun v => x =? User.id v) us)) ms.
Proof.
  induction us as [|u us IH]; intros ms.
  - cbn. induction ms as [|x ms IHms]; cbn; [reflexivity|].
    now rewrite <- IHms.
  - rewrite without_all_cons, IH. unfold without.
    induction ms as [|x ms IHms]; cbn; [reflexivity|].
    destruct (x =? User.id u); cbn; [exact IHms|].
    destruct (existsb (fun v => x =? User.id v) us); cbn; [exact IHms|].
    now rewrite IHms.
Qed.

Lemma with_members_fields (ms : list string) (r : ChatRoom.t) :
  with_members ms r
  = ChatRoom.mk (ChatRoom.id r) (ChatRoom.name r) (ChatRoom.type r) ms
      (ChatRoom.createdAt r) (ChatRoom.lastMessageAt r).
Proof. now destruct r. Qed.

(** C6. Room existence tracks membership.  (1) No run of [leaveRoom]
    calls, by whatever callers on whatever rooms and whatever the store
    answers, leaves a room with an empty member list in a store that had
    none.  (2) With the lookup answered, [leaveRoom] on an unknown room
    raises the room-not-found error and writes nothing.  (3) On a known
    room whose every member entry is the caller it asks for the deletion
    of the room, after which the store holds the records under other ids
    and the room is gone.  (4) On a known room with a member entry that is
    not the caller it asks for the update of the member list to the
    entries other than the caller, in their order, after which the room is
    there with exactly these members and its other fields as they were.
    (5) With every service up, a room with members that a list of users
    leave one after the other is in the store afterwards exactly when some
    member is not among them, and then holds, in their order, the members
    that are not. *)
Theorem leaveRoom_tracks_membership env (u : User.t) (roomId : string)
    (w : World) :
  let n := List.length (wire w) in
  let find := FindRooms (RoomId roomId) None (Some 1) in
  let r := leaveRoom env (Some u) roomId w in
  let shrunk := fun (room : ChatRoom.t) (ms : list string) =>
    ChatRoom.mk (ChatRoom.id room) (ChatRoom.name room) (ChatRoom.type room)
      ms (ChatRoom.createdAt room) (ChatRoom.lastMessageAt room) in
  (forall calls, no_empty_room w -> no_empty_room (leave_all env calls w))
  /\ (rejects env n find = false ->
      room_of roomId w = None ->
      r = (Err RoomNotFound, with_wire w [(find, true)]))
  /\ (forall room,
        rejects env n find = false ->
        room_of roomId w = Some room ->
        (forall x, In x (ChatRoom.members room) -> x = User.id u) ->
        rejects env (S n) (DeleteRoom roomId) = false ->
        fst r = Ok tt
        /\ issued w (snd r) = [(find, true); (DeleteRoom roomId, true)]
        /\ chat_rooms (snd r)
           = filter (fun x => negb (ChatRoom.id x =? roomId)) (chat_rooms w)
        /\ room_of roomId (snd r) = None)
  /\ (forall room,
        let ms := filter (fun x => negb (x =? User.id u))
                         (ChatRoom.members room) in
        rejects env n find = false ->
        room_of roomId w = Some room ->
        (exists x, In x (ChatRoom.members room) /\ x <> User.id u) ->
        rejects env (S n) (UpdateRoom roomId (SetMembers ms)) = false ->
        fst r = Ok tt
        /\ issued w (snd r)
           = [(find, true); (UpdateRoom roomId (SetMembers ms), true)]
        /\ room_of roomId (snd r) = Some (shrunk room ms)
        /\ (forall x, In x ms <-> In x (ChatRoom.members room) /\ x <> User.id u))
  /\ (forall us room,
        let ms := filter (fun x => negb (existsb (fun v => x =? User.id v) us))
                         (ChatRoom.members room) in
        reliable env ->
        room_of roomId w = Some room ->
        ChatRoom.members room <> [] ->
        room_of roomId (leave_all env (map (fun v => (Some v, roomId)) us) w)
        = match ms with
          | [] => None
          | _ :: _ => Some (shrunk room ms)
          end
        /\ (forall x, In x ms <-> In x (ChatRoom.members room)
                                  /\ forall v, In v us -> x <> User.id v)).
Proof.
  intros n find r shrunk. split; [|split; [|split; [|split]]].
  - intros calls. apply leave_all_keeps_no_empty_room.
  - intros Hf Hroom. subst r. rewrite leaveRoom_run. cbv zeta.
    fold n find. now rewrite Hf, Hroom.
  - intros room Hf Hroom Hall Hd. subst r. rewrite leaveRoom_run. cbv zeta.
    fold n find. rewrite Hf, Hroom, (without_nil _ _ Hall), Hd. cbn [fst snd].
    split; [reflexivity|]. split; [|split].
    + unfold issued. cbn [wire].
      now rewrite skipn_app, skipn_all, Nat.sub_diag.
    + reflexivity.
    + apply room_of_deleted.
  - intros room ms Hf Hroom [x [Hx Hne]] Hu.
    change ms with (without (User.id u) (ChatRoom.members room)) in *.
    assert (Hin : In x (without (User.id u) (ChatRoom.members room)))
      by (apply in_without; now split).
    subst r. rewrite leaveRoom_run. cbv zeta. fold n find. rewrite Hf, Hroom.
    clearbody ms. clear ms.
    destruct (without (User.id u) (ChatRoom.members room)) as [|y ys] eqn:E;
      [destruct Hin|].
    cbv match. rewrite Hu. cbn [fst snd]. split; [reflexivity|]. split; [|split].
    + unfold issued. cbn [wire].
      now rewrite skipn_app, skipn_all, Nat.sub_diag.
    + unfold shrunk. rewrite <- with_members_fields.
      unfold with_members. rewrite room_of_updated.
      unfold room_of in Hroom. now rewrite Hroom.
    + intros z. rewrite <- E. apply in_without.
  - intros us room ms Hup Hroom Hms. split.
    + rewrite (leave_all_tracks _ _ _ Hup), Hroom.
      subst ms. rewrite <- without_all_filter. unfold shrunk.
      destruct us as [|v us].
      * cbn [without_all fold_left].
        destruct (ChatRoom.members room) as [|y ys] eqn:E; [congruence|].
        now rewrite <- with_members_fields, <- E, with_members_id.
      * destruct (without_all (v :: us) (ChatRoom.members room));
          [reflexivity|]. now rewrite with_members_fields.
    + intros x. subst ms. rewrite filter_In, negb_true_iff.
      split; intros [Hx H]; (split; [exact Hx|]).
      * intros v Hv ->.
        assert (existsb (fun v0 => User.id v =? User.id v0) us = true)
          by (apply existsb_exists; exists v; split;
              [exact Hv|apply String.eqb_refl]).
        congruence.
      * destruct (existsb (fun v => x =? User.id v) us) eqn:E; [|reflexivity].
        apply existsb_exists in E. destruct E as [v [Hv E]].
        apply String.eqb_eq in E. now apply H in Hv.
Qed.

(** Scenario 2 on the group of [u1], [u2] and [u3]: once [u2] has left,
    the room holds [u1] and [u3]; once [u1] has left too, [u3] alone; once
    all three have, the room is gone. *)
Lemma leaveRoom_tracks_membership_witness :
  room_of "r1" Sample.office = Some Sample.team
  /\ ChatRoom.members Sample.team = ["u1"; "u2"; "u3"]
  /\ option_map ChatRoom.members
       (room_of "r1" (leave_all Sample.up [(Some Sample.u2, "r1")] Sample.office))
     = Some ["u1"; "u3"]
  /\ option_map ChatRoom.members
       (room_of "r1"
          (leave_all Sample.up [(Some Sample.u2, "r1"); (Some Sample.u1, "r1")]
             Sample.office))
     = Some ["u3"]
  /\ room_of "r1"
       (leave_all Sample.up
          [(Some Sample.u2, "r1"); (Some Sample.u1, "r1"); (Some Sample.u3, "r1")]
          Sample.office)
     = None.
Proof.
  assert (Hroom : room_of "r1" Sample.office = Some Sample.team) by reflexivity.
  assert (Hup : reliable Sample.up) by (intros n req; reflexivity).
  assert (Hms : ChatRoom.members Sample.team <> []) by discriminate.
  pose proof (proj2 (proj2 (proj2 (proj2
    (leaveRoom_tracks_membership Sample.up Sample.u1 "r1" Sample.office)))))
    as H.
  split; [exact Hroom|]. split; [reflexivity|]. split; [|split].
  - destruct (H [Sample.u2] Sample.team Hup Hroom Hms) as [E _].
    cbn [map] in E. rewrite E. reflexivity.
  - destruct (H [Sample.u2; Sample.u1] Sample.team Hup Hroom Hms) as [E _].
    cbn [map] in E. rewrite E. reflexivity.
  - destruct (H [Sample.u2; Sample.u1; Sample.u3] Sample.team Hup Hroom Hms)
      as [E _].
    cbn [map] in E. rewrite E. reflexivity.
Defined.

(** ** markAsRead *)

Lemma markAsRead_loop env (u : User.t) (ids : list string) :
  markAsRead env (Some u) ids = for_each ids (mark_one env u).
Proof. reflexivity. Qed.

Lemma mark_one_run env (u : User.t) (messageId : string) (w : World) :
  let n := List.length (wire w) in
  let find := FindMessages (MsgId messageId) None (Some 1) in
  mark_one env u messageId w
  = if rejects env n find
    then (Err ApiError, with_wire w [(find, false)])
    else match message_of messageId w with
         | None => (Ok tt, with_wire w [(find, true)])
         | Some m =>
             if includes (Message.readBy m) (User.id u)
             then (Ok tt, with_wire w [(find, true)])
             else
               let write := UpdateMessage messageId
                              (SetReadBy (Message.readBy m ++ [User.id u])) in
               if rejects env (S n) write
               then (Err ApiError, with_wire w [(find, true); (write, false)])
               else (Ok tt,
                     mkWorld (chat_rooms w)
                       (update_first (fun x => Message.id x =? messageId)
                          (patch_message
                             (SetReadBy (Message.readBy m ++ [User.id u])))
                          (messages w))
                       (wire w ++ [(find, true); (write, true)])
                       (clock_reads w))
         end.
Proof.
  cbv zeta. unfold mark_one, bind, ret. rewrite findOne_message_run.
  destruct (rejects env _ _); [reflexivity|].
  fold (message_of messageId w).
  destruct (message_of messageId w) as [m|]; [|reflexivity].
  destruct (includes (Message.readBy m) (User.id u)); [reflexivity|].
  unfold update_message, fetch, logged, with_wire.
  cbn [wire chat_rooms messages clock_reads].
  rewrite length_app. cbn [List.length]. rewrite Nat.add_1_r.
  destruct (rejects env _ _); cbn [wire chat_rooms messages clock_reads serve];
    rewrite <- app_assoc; reflexivity.
Qed.

Lemma receipts_grow_refl (m : Message.t) : receipts_grow m m.
Proof. split; [now destruct m|apply incl_refl]. Qed.

Lemma receipts_grow_trans (a b c : Message.t) :
  receipts_grow a b -> receipts_grow b c -> receipts_grow a c.
Proof.
  intros [Hb Hab] [Hc Hbc]. split.
  - rewrite Hc. rewrite Hb at 1. reflexivity.
  - eapply incl_tran; eassumption.
Qed.

Lemma grow_refl (l : list Message.t) : Forall2 receipts_grow l l.
Proof. induction l; constructor; auto using receipts_grow_refl. Qed.

Lemma grow_trans (l1 l2 l3 : list Message.t) :
  Forall2 receipts_grow l1 l2 -> Forall2 receipts_grow l2 l3 ->
  Forall2 receipts_grow l1 l3.
Proof.
  intros H12. revert l3. induction H12 as [|a b l1 l2 Hab H12 IH];
    intros l3 H23; inversion H23; subst; constructor.
  - eapply receipts_grow_trans; eassumption.
  - now apply IH.
Qed.

(** Patching the first hit with its own receipts plus one only adds. *)
Lemma grow_update_first (hit : Message.t -> bool) (u : string)
    (l : list Message.t) (m : Message.t) :
  hd_error (filter hit l) = Some m ->
  Forall2 receipts_grow l
    (update_first hit (patch_message (SetReadBy (Message.readBy m ++ [u]))) l).
Proof.
  induction l as [|x l IH]; cbn; [discriminate|].
  destruct (hit x).
  - cbn. intros H. injection H as ->. constructor; [|apply grow_refl].
    split; [reflexivity|]. cbn. now apply incl_appl, incl_refl.
  - intros H. constructor; [apply receipts_grow_refl|now apply IH].
Qed.

Lemma mark_one_grows env (u : User.t) (messageId : string) (w : World) :
  Forall2 receipts_grow (messages w) (messages (snd (mark_one env u messageId w))).
Proof.
  rewrite mark_one_run. cbv zeta.
  destruct (rejects env _ _); [apply grow_refl|].
  destruct (message_of messageId w) as [m|] eqn:Hm; [|apply grow_refl].
  destruct (includes _ _); [apply grow_refl|].
  destruct (rejects env _ _); [apply grow_refl|].
  cbn [snd messages]. now apply grow_update_first.
Qed.

Lemma markAsRead_grows env (user : option User.t) (ids : list string) :
  forall w,
    Forall2 receipts_grow (messages w)
            (messages (snd (markAsRead env user ids w))).
Proof.
  destruct user as [u|]; [|intros w; apply grow_refl].
  rewrite markAsRead_loop.
  induction ids as [|i ids IH]; intros w; [apply grow_refl|].
  cbn [for_each]. unfold bind.
  pose proof (mark_one_grows env u i w) as H1.
  destruct (mark_one env u i w) as [[[]|e] w1]; cbn [snd] in *; [|exact H1].
  eapply grow_trans; [exact H1|apply IH].
Qed.

Lemma mark_all_grows env (calls : list (option User.t * list string)) :
  forall w, Forall2 receipts_grow (messages w) (messages (mark_all env calls w)).
Proof.
  induction calls as [|[user ids] calls IH]; intros w; [apply grow_refl|].
  cbn [mark_all fold_left fst snd].
  eapply grow_trans; [apply markAsRead_grows|apply IH].
Qed.

Lemma includes_app_r (l : list string) (x : string) :
  includes (l ++ [x]) x = true.
Proof.
  unfold includes. rewrite existsb_app. cbn. rewrite String.eqb_refl.
  now rewrite orb_true_r.
Qed.

Lemma message_of_updated (messageId : string) (p : MessagePatch)
    (rs : list ChatRoom.t) (l : list Message.t) (wr : list (Request * bool))
    (c : nat) :
  message_of messageId
    (mkWorld rs (update_first (fun x => Message.id x =? messageId)
                   (patch_message p) l) wr c)
  = option_map (patch_message p)
               (hd_error (filter (message_matches (MsgId messageId)) l)).
Proof.
  unfold message_of. cbn [messages].
  apply hd_filter_update_first. intros x. cbn. now rewrite patch_message_id.
Qed.

(** Once a single-id [markAsRead] has completed, the message, if there is
    one, carries the caller's receipt. *)
Lemma markAsRead_marks env (u : User.t) (messageId : string) (w w1 : World) :
  markAsRead env (Some u) [messageId] w = (Ok tt, w1) ->
  match message_of messageId w1 with
  | Some m => includes (Message.readBy m) (User.id u) = true
  | None => True
  end.
Proof.
  rewrite markAsRead_loop. cbn [for_each]. unfold bind, ret.
  rewrite mark_one_run. cbv zeta.
  destruct (rejects env _ _); [discriminate|].
  destruct (message_of messageId w) as [m|] eqn:Hm.
  - destruct (includes (Message.readBy m) (User.id u)) eqn:Hin.
    + intros H. injection H as <-.
      change (message_of messageId (with_wire w _)) with (message_of messageId w).
      now rewrite Hm.
    + destruct (rejects env _ _); [discriminate|].
      intros H. injection H as <-. rewrite message_of_updated.
      unfold message_of in Hm. rewrite Hm. cbn. apply includes_app_r.
  - intros H. injection H as <-.
    change (message_of messageId (with_wire w _)) with (message_of messageId w).
    now rewrite Hm.
Qed.

(** A single-id [markAsRead] on a message that already carries the
    caller's receipt, or on no message at all, is one lookup. *)
Lemma markAsRead_skips env (u : User.t) (messageId : string) (w : World) :
  match message_of messageId w with
  | Some m => includes (Message.readBy m) (User.id u) = true
  | None => True
  end ->
  let find := FindMessages (MsgId messageId) None (Some 1) in
  markAsRead env (Some u) [messageId] w
  = if rejects env (List.length (wire w)) find
    then (Err ApiError, with_wire w [(find, false)])
    else (Ok tt, with_wire w [(find, true)]).
Proof.
  intros H. cbv zeta. rewrite markAsRead_loop. cbn [for_each].
  unfold bind, ret. rewrite mark_one_run. cbv zeta.
  destruct (rejects env _ _); [reflexivity|].
  destruct (message_of messageId w) as [m|]; [|reflexivity].
  now rewrite H.
Qed.

(** C7. Read receipts are monotonic and [markAsRead] is idempotent.
    (1) Over any run of [markAsRead] calls, whoever calls and whatever the
    store answers, the messages stay the same messages in the same order
    and each [readBy] contains what it contained before.  (2) After a
    completed [markAsRead([id])], the same call again changes no record
    and issues no write, only the lookup; when that lookup is answered it
    completes.  (3) More generally a message that already carries the
    caller's receipt is never written. *)
Theorem markAsRead_monotonic_idempotent env (u : User.t) (messageId : string)
    (w : World) :
  let find := FindMessages (MsgId messageId) None (Some 1) in
  (forall calls,
      Forall2 receipts_grow (messages w) (messages (mark_all env calls w)))
  /\ (forall w1,
        markAsRead env (Some u) [messageId] w = (Ok tt, w1) ->
        let again := markAsRead env (Some u) [messageId] w1 in
        messages (snd again) = messages w1
        /\ filter (fun q => is_write (fst q)) (issued w1 (snd again)) = []
        /\ (rejects env (List.length (wire w1)) find = false ->
            again = (Ok tt, with_wire w1 [(find, true)])))
  /\ (forall m,
        message_of messageId w = Some m ->
        includes (Message.readBy m) (User.id u) = true ->
        let r := markAsRead env (Some u) [messageId] w in
        messages (snd r) = messages w
        /\ filter (fun q => is_write (fst q)) (issued w (snd r)) = []).
Proof.
  intros find. split; [|split].
  - intros calls. apply mark_all_grows.
  - intros w1 H1 again. subst again.
    rewrite (markAsRead_skips env u messageId w1 (markAsRead_marks _ _ _ _ _ H1)).
    cbv zeta. fold find.
    destruct (rejects env _ _); cbn [snd]; rewrite issued_with_wire;
      repeat split; congruence.
  - intros m Hm Hin r. subst r.
    rewrite (markAsRead_skips env u messageId w) by now rewrite Hm.
    cbv zeta. destruct (rejects env _ _); cbn [snd];
      rewrite issued_with_wire; split; reflexivity.
Qed.

(** Scenario 3: [u2] marks the message of [u1] as read, twice. *)
Lemma markAsRead_monotonic_idempotent_witness :
  let w1 := snd (markAsRead Sample.up (Some Sample.u2) ["m1"] Sample.office) in
  option_map Message.readBy (message_of "m1" w1) = Some ["u1"; "u2"]
  /\ messages (snd (markAsRead Sample.up (Some Sample.u2) ["m1"] w1))
     = messages w1.
Proof.
  cbv zeta. split; [reflexivity|].
  apply (proj1 (proj2 (markAsRead_monotonic_idempotent Sample.up Sample.u2
                         "m1" Sample.office))).
  reflexivity.
Defined.

(** ** Stable insertion sort *)

Section Sorting.

Variable A : Type.
Variable before : A -> A -> bool.
Hypothesis before_asym : forall x y, before x y = true -> before y x = false.
Hypothesis before_neg_trans :
  forall x y z, before y x = false -> before z y = false -> before z x = false.

(** [x] may stand in front of [y]. *)
Let ok (x y : A) : Prop := before y x = false.

Lemma insert_by_perm (x : A) (l : list A) :
  Permutation (x :: l) (insert_by before x l).
Proof.
  induction l as [|y l IH]; cbn; [reflexivity|].
  destruct (before y x); [|reflexivity].
  rewrite perm_swap. now constructor.
Qed.

Lemma sort_by_perm (l : list A) : Permutation l (sort_by before l).
Proof.
  induction l as [|x l IH]; cbn; [reflexivity|].
  rewrite <- insert_by_perm. now constructor.
Qed.

Lemma insert_by_HdRel (a x : A) (l : list A) :
  ok a x -> HdRel ok a l -> HdRel ok a (insert_by before x l).
Proof.
  intros Hax Hal. destruct l as [|y l]; cbn; [now constructor|].
  destruct (before y x); constructor; [now inversion Hal|exact Hax].
Qed.

Lemma insert_by_sorted (x : A) (l : list A) :
  Sorted ok l -> Sorted ok (insert_by before x l).
Proof.
  induction 1 as [|y l Hl IH Hy]; cbn; [repeat constructor|].
  destruct (before y x) eqn:E.
  - constructor; [exact IH|].
    apply insert_by_HdRel; [|exact Hy]. now apply before_asym.
  - repeat constructor; assumption.
Qed.

Lemma sort_by_sorted (l : list A) : StronglySorted ok (sort_by before l).
Proof.
  apply Sorted_StronglySorted.
  - intros x y z Hxy Hyz. unfold ok in *. eauto.
  - induction l as [|x l IH]; cbn; [constructor|].
    now apply insert_by_sorted.
Qed.

End Sorting.

Lemma StronglySorted_app_inv {A} (R : A -> A -> Prop) (l1 l2 : list A) :
  StronglySorted R (l1 ++ l2) ->
  StronglySorted R l1 /\ StronglySorted R l2
  /\ forall a b, In a l1 -> In b l2 -> R a b.
Proof.
  induction l1 as [|x l1 IH]; cbn; intros H.
  - repeat split; [constructor|exact H|intros a b []].
  - inversion H as [|? ? Hs Hx]; subst.
    destruct (IH Hs) as (H1 & H2 & H12).
    rewrite Forall_app in Hx. destruct Hx as [Hx1 Hx2].
    repeat split; [now constructor|exact H2|].
    intros a b [<-|Ha] Hb; [|now apply H12].
    rewrite Forall_forall in Hx2. now apply Hx2.
Qed.

Lemma StronglySorted_app {A} (R : A -> A -> Prop) (l1 l2 : list A) :
  StronglySorted R l1 -> StronglySorted R l2 ->
  (forall a b, In a l1 -> In b l2 -> R a b) ->
  StronglySorted R (l1 ++ l2).
Proof.
  induction 1 as [|x l1 Hs IH Hx]; cbn; intros H2 H12; [exact H2|].
  constructor.
  - apply IH; [exact H2|]. intros a b Ha Hb. apply H12; [now right|exact Hb].
  - rewrite Forall_app. split; [exact Hx|].
    rewrite Forall_forall. intros b Hb. apply H12; [now left|exact Hb].
Qed.

Lemma StronglySorted_rev {A} (R : A -> A -> Prop) (l : list A) :
  StronglySorted R l -> StronglySorted (fun a b => R b a) (rev l).
Proof.
  induction 1 as [|x l Hs IH Hx]; cbn; [constructor|].
  apply StronglySorted_app; [exact IH|repeat constructor|].
  intros a b Ha [<-|[]]. rewrite Forall_forall in Hx.
  apply Hx. now apply in_rev.
Qed.

Lemma rev_firstn {A} (n : nat) (l : list A) :
  rev (firstn n l) = skipn (List.length l - n) (rev l).
Proof.
  rewrite skipn_rev. f_equal.
  destruct (Nat.le_ge_cases n (List.length l)) as [H|H].
  - f_equal. lia.
  - replace (List.length l - (List.length l - n)) with (List.length l) by lia.
    now rewrite firstn_all, firstn_all2.
Qed.

(** ** getMessages *)

Lemma getMessages_run env (u : User.t) (roomId : string) (limit : option nat)
    (w : World) :
  let n := match limit with Some n => n | None => 50 end in
  let find := FindMessages (MsgRoom roomId) (Some desc) (limit_param (Some n)) in
  getMessages env (Some u) roomId limit w
  = if rejects env (List.length (wire w)) find
    then (Err ApiError, with_wire w [(find, false)])
    else (Ok (rev (select (message_matches (MsgRoom roomId)) Message.createdAt
                          (Some desc) (limit_param (Some n)) (messages w))),
          with_wire w [(find, true)]).
Proof.
  cbv zeta. unfold getMessages, authenticated, bind, ret, find_messages, fetch.
  now destruct (rejects env _ _).
Qed.

Lemma history_sorted (roomId : string) (w : World) :
  StronglySorted not_later (history roomId w).
Proof.
  unfold history, select, limited, ordered.
  apply (StronglySorted_rev (fun a b => not_later b a)).
  apply (sort_by_sorted Message.t
           (fun x y : Message.t => js_lt (Message.createdAt y) (Message.createdAt x))).
  - intros x y. apply js_lt_asym.
  - intros x y z Hxy Hyz. exact (js_le_trans _ _ _ Hyz Hxy).
Qed.

Lemma history_perm (roomId : string) (w : World) :
  Permutation (history roomId w)
              (filter (fun m => Message.roomId m =? roomId) (messages w)).
Proof.
  unfold history, select, limited, ordered.
  rewrite <- Permutation_rev. symmetry. apply sort_by_perm.
Qed.

(** C8, for a limit of at least one.  With the lookup answered,
    [getMessages(roomId, N)], [N] being 50 when the argument is omitted,
    returns the last [N] entries of the room's history, the whole history
    if it is shorter: at most [N] messages, oldest first, none of them
    older than a message left out; the history being all the messages of
    the room, oldest first.  The store is not changed. *)
Theorem getMessages_recent_suffix env (u : User.t) (roomId : string)
    (limit : option nat) (w : World) :
  let N := match limit with Some n => n | None => 50 end in
  let find := FindMessages (MsgRoom roomId) (Some desc) (Some N) in
  N <> 0 ->
  rejects env (List.length (wire w)) find = false ->
  let all := history roomId w in
  let older := firstn (List.length all - N) all in
  let recent := skipn (List.length all - N) all in
  getMessages env (Some u) roomId limit w
  = (Ok recent, with_wire w [(find, true)])
  /\ all = older ++ recent
  /\ List.length recent = Nat.min N (List.length all)
  /\ StronglySorted not_later recent
  /\ (forall a b, In a older -> In b recent -> not_later a b)
  /\ Permutation all (filter (fun m => Message.roomId m =? roomId) (messages w)).
Proof.
  intros N find HN Hacc all older recent.
  assert (Hsplit : all = older ++ recent)
    by (symmetry; apply firstn_skipn).
  pose proof (history_sorted roomId w) as Hs. fold all in Hs.
  rewrite Hsplit in Hs.
  destruct (StronglySorted_app_inv _ _ _ Hs) as (_ & Hrecent & Hcross).
  split; [|split; [exact Hsplit|split; [|split; [exact Hrecent|split]]]].
  - rewrite getMessages_run. cbv zeta. fold N.
    replace (limit_param (Some N)) with (Some N)
      by (destruct N; [congruence|reflexivity]).
    fold find. rewrite Hacc. f_equal. f_equal.
    unfold recent, all, history, select. cbn [limited].
    now rewrite rev_firstn, length_rev.
  - unfold recent. rewrite length_skipn. lia.
  - exact Hcross.
  - apply history_perm.
Qed.

Lemma getMessages_recent_suffix_witness :
  getMessages Sample.up (Some Sample.u1) "r1" (Some 1) Sample.office
  = (Ok [Sample.yo],
     with_wire Sample.office
       [(FindMessages (MsgRoom "r1") (Some desc) (Some 1), true)]).
Proof.
  apply (getMessages_recent_suffix Sample.up Sample.u1 "r1" (Some 1)
           Sample.office).
  - discriminate.
  - reflexivity.
Defined.

(** C8 fails as stated for the limit 0: the client does not send a limit
    of 0, and the two messages of the room come back. *)
Lemma getMessages_limit_0_returns_all :
  fst (getMessages Sample.up (Some Sample.u1) "r1" (Some 0) Sample.office)
  = Ok [Sample.hi; Sample.yo].
Proof. vm_compute. reflexivity. Qed.

(** ** getOnlineUsers and the authentication checks *)

Lemma getOnlineUsers_run env (user : option User.t) (roomId : string)
    (w : World) :
  let find := FindRooms (RoomId roomId) None (Some 1) in
  getOnlineUsers env user roomId w
  = if rejects env (List.length (wire w)) find
    then (Err ApiError, with_wire w [(find, false)])
    else (Ok match room_of roomId w with
             | Some room => ChatRoom.members room
             | None => []
             end,
          with_wire w [(find, true)]).
Proof.
  cbv zeta. unfold getOnlineUsers, bind, ret. rewrite findOne_room_run.
  now destruct (rejects env _ _).
Qed.

(** * Further properties *)

(** ** Sets of ids *)

Lemma includes_In (l : list string) (x : string) :
  includes l x = true <-> In x l.
Proof.
  unfold includes. rewrite existsb_exists. split.
  - intros (y & Hy & E). apply String.eqb_eq in E. now subst.
  - intros H. exists x. split; [exact H|apply String.eqb_refl].
Qed.

Lemma includes_false (l : list string) (x : string) :
  includes l x = false <-> ~ In x l.
Proof.
  rewrite <- includes_In. destruct (includes l x); split; congruence.
Qed.

Lemma In_js_set (l : list string) (x : string) : In x (js_set l) <-> In x l.
Proof.
  induction l as [|y l IH]; cbn; [tauto|].
  rewrite filter_In, IH, negb_true_iff, String.eqb_neq.
  destruct (string_dec y x) as [->|Hne]; [tauto|].
  split; [tauto|]. intros [H|H]; [tauto|]. right. split; [exact H|congruence].
Qed.

Lemma NoDup_js_set (l : list string) : NoDup (js_set l).
Proof.
  induction l as [|y l IH]; cbn; constructor.
  - rewrite filter_In, negb_true_iff, String.eqb_neq. tauto.
  - now apply NoDup_filter.
Qed.

(** ** createGroupRoom *)

Lemma createGroupRoom_run env (u : User.t) (name : string)
    (memberIds : list string) (w : World) :
  let ms := js_set (User.id u :: memberIds) in
  let c := clock env (clock_reads w) in
  let t := clock env (S (clock_reads w)) in
  let create := CreateRoom name ChatRoom.group ms c t in
  let r := ChatRoom.mk (assign_id env (List.length (wire w))) name
                       ChatRoom.group ms c t in
  createGroupRoom env (Some u) name memberIds w
  = if rejects env (List.length (wire w)) create
    then (Err ApiError,
          mkWorld (chat_rooms w) (messages w) (wire w ++ [(create, false)])
                  (S (S (clock_reads w))))
    else (Ok r,
          mkWorld (chat_rooms w ++ [r]) (messages w)
                  (wire w ++ [(create, true)]) (S (S (clock_reads w)))).
Proof.
  cbv zeta. unfold createGroupRoom, authenticated, bind, ret, now, create_room,
    fetch, logged, serve.
  cbn [wire chat_rooms messages clock_reads].
  now destruct (rejects env _ _).
Qed.

(** X1. A group room is created without any lookup: one create request,
    and on its acceptance the room returned is the new last room of the
    store, of type group, under the name given.  Its members are the
    caller followed by the ids given, each once: the caller comes first,
    no id is repeated, and an id is a member exactly when it is the
    caller's or one of those given. *)
Theorem createGroupRoom_members env (u : User.t) (name : string)
    (memberIds : list string) (w : World) :
  let ms := js_set (User.id u :: memberIds) in
  let create := CreateRoom name ChatRoom.group ms (clock env (clock_reads w))
                           (clock env (S (clock_reads w))) in
  rejects env (List.length (wire w)) create = false ->
  exists r w',
    createGroupRoom env (Some u) name memberIds w = (Ok r, w')
    /\ chat_rooms w' = chat_rooms w ++ [r]
    /\ messages w' = messages w
    /\ issued w w' = [(create, true)]
    /\ ChatRoom.type r = ChatRoom.group
    /\ ChatRoom.name r = name
    /\ hd_error (ChatRoom.members r) = Some (User.id u)
    /\ NoDup (ChatRoom.members r)
    /\ (forall x, In x (ChatRoom.members r) <-> x = User.id u \/ In x memberIds).
Proof.
  intros ms create Hacc. rewrite createGroupRoom_run. cbv zeta.
  fold ms create. rewrite Hacc. eexists _, _. split; [reflexivity|].
  cbn [chat_rooms messages ChatRoom.type ChatRoom.name ChatRoom.members].
  split; [reflexivity|]. split; [reflexivity|]. split.
  { unfold issued. cbn [wire]. now rewrite skipn_app, skipn_all, Nat.sub_diag. }
  split; [reflexivity|]. split; [reflexivity|]. split; [reflexivity|].
  split; [apply NoDup_js_set|].
  intros x. unfold ms. rewrite In_js_set. cbn [In]. split; intros [H|H]; auto.
Qed.

Lemma createGroupRoom_members_witness :
  exists r w',
    createGroupRoom Sample.up (Some Sample.u1) "team" ["u2"; "u1"; "u2"]
                    Sample.office = (Ok r, w')
    /\ ChatRoom.members r = ["u1"; "u2"].
Proof.
  destruct (createGroupRoom_members Sample.up Sample.u1 "team"
              ["u2"; "u1"; "u2"] Sample.office eq_refl)
    as (r & w' & H & _).
  exists r, w'. split; [exact H|]. injection H as <- _. reflexivity.
Defined.

(** ** getRooms *)

Lemma getRooms_run env (u : User.t) (w : World) :
  let find := FindRooms (RoomContains (User.id u)) (Some desc) None in
  getRooms env (Some u) w
  = if rejects env (List.length (wire w)) find
    then (Err ApiError, with_wire w [(find, false)])
    else (Ok (select (room_matches (RoomContains (User.id u)))
                     ChatRoom.lastMessageAt (Some desc) None (chat_rooms w)),
          with_wire w [(find, true)]).
Proof.
  cbv zeta. unfold getRooms, authenticated, bind, ret, find_rooms, fetch.
  now destruct (rejects env _ _).
Qed.

(** X2. [getRooms] sends one request: a find on the rooms whose members
    contain the caller's id, ordered by last activity, latest first, with
    no limit.  With that lookup answered it returns the rooms of the store
    that list the caller as a member, all of them and each as often as the
    store holds it, the most recently active first; it changes no record. *)
Theorem getRooms_lists_own_rooms env (u : User.t) (w : World) :
  rejects env (List.length (wire w))
          (FindRooms (RoomContains (User.id u)) (Some desc) None) = false ->
  exists rs w',
    getRooms env (Some u) w = (Ok rs, w')
    /\ issued w w'
       = [(FindRooms (RoomContains (User.id u)) (Some desc) None, true)]
    /\ Permutation rs
         (filter (fun r => includes (ChatRoom.members r) (User.id u))
                 (chat_rooms w))
    /\ (forall r, In r rs <->
                  In r (chat_rooms w) /\ In (User.id u) (ChatRoom.members r))
    /\ StronglySorted not_staler rs
    /\ chat_rooms w' = chat_rooms w
    /\ messages w' = messages w.
Proof.
  intros Hacc. rewrite getRooms_run. cbv zeta. rewrite Hacc.
  eexists _, _. split; [reflexivity|].
  unfold select, limited, ordered.
  assert (Hperm : Permutation
            (sort_by (fun x y => js_lt (ChatRoom.lastMessageAt y)
                                       (ChatRoom.lastMessageAt x))
               (filter (room_matches (RoomContains (User.id u))) (chat_rooms w)))
            (filter (fun r => includes (ChatRoom.members r) (User.id u))
                    (chat_rooms w))).
  { symmetry. apply sort_by_perm. }
  split.
  { unfold issued, with_wire. cbn [wire].
    now rewrite skipn_app, skipn_all, Nat.sub_diag. }
  split; [exact Hperm|]. split; [|split; [|split; reflexivity]].
  - intros r. split.
    + intros H. apply (Permutation_in _ Hperm) in H.
      apply filter_In in H. now rewrite includes_In in H.
    + intros [H1 H2]. apply (Permutation_in _ (Permutation_sym Hperm)).
      apply filter_In. now rewrite includes_In.
  - apply (sort_by_sorted ChatRoom.t
             (fun x y => js_lt (ChatRoom.lastMessageAt y)
                               (ChatRoom.lastMessageAt x))).
    + intros x y. apply js_lt_asym.
    + intros x y z Hxy Hyz. exact (js_le_trans _ _ _ Hyz Hxy).
Qed.

(** Three rooms, two of them with [u2]: the one [u2] is not in stays
    out, and of the other two the later active comes first although the
    store holds it last. *)
Lemma getRooms_lists_own_rooms_witness :
  exists rs w',
    getRooms Sample.up (Some Sample.u2) three_rooms = (Ok rs, w')
    /\ map ChatRoom.id (chat_rooms three_rooms) = ["a"; "b"; "c"]
    /\ map ChatRoom.id rs = ["c"; "a"]
    /\ issued three_rooms w'
       = [(FindRooms (RoomContains "u2") (Some desc) None, true)].
Proof.
  destruct (getRooms_lists_own_rooms Sample.up Sample.u2 three_rooms eq_refl)
    as (rs & w' & H & Hi & _).
  exists rs, w'. split; [exact H|]. split; [reflexivity|].
  split; [|exact Hi].
  assert (E : fst (getRooms Sample.up (Some Sample.u2) three_rooms)
              = Ok [ChatRoom.mk "c" "gamma" ChatRoom.group ["u2"; "u3"]
                      "2024-05-01T08:00:00.000Z" "2024-05-04T09:00:00.000Z";
                    ChatRoom.mk "a" "alpha" ChatRoom.group ["u1"; "u2"]
                      "2024-05-01T08:00:00.000Z" "2024-05-02T09:00:00.000Z"])
    by reflexivity.
  rewrite H in E. cbn [fst] in E. injection E as ->. reflexivity.
Defined.

(** ** getUnreadCount *)

Lemma getUnreadCount_run env (u : User.t) (roomId : option string) (w : World) :
  let find := FindMessages (MsgUnread (User.id u) (scope_of roomId)) None None in
  getUnreadCount env (Some u) roomId w
  = if rejects env (List.length (wire w)) find
    then (Err ApiError, with_wire w [(find, false)])
    else (Ok (unread (User.id u) (scope_of roomId) w),
          with_wire w [(find, true)]).
Proof.
  cbv zeta. unfold getUnreadCount, authenticated, bind, ret, find_messages,
    fetch, scope_of.
  now destruct (rejects env _ _).
Qed.

Lemma unread_scoped_le (uid r : string) (w : World) :
  unread uid (Some r) w <= unread uid None w.
Proof.
  unfold unread. induction (messages w) as [|m l IH]; cbn; [lia|].
  destruct (includes (Message.readBy m) uid); cbn; [exact IH|].
  destruct (Message.roomId m =? r); cbn; lia.
Qed.

(** X3. With the lookup answered, [getUnreadCount] returns the number of
    messages that lack the caller's receipt, in the room given or, when
    the room id is omitted or is the empty string, in all rooms; the count
    for one room never exceeds the count for all, and no record changes. *)
Theorem getUnreadCount_scope env (u : User.t) (roomId : option string)
    (w : World) :
  reliable env ->
  let count := fun room => fst (getUnreadCount env (Some u) room w) in
  count roomId = Ok (unread (User.id u) (scope_of roomId) w)
  /\ count (Some "") = count None
  /\ (forall r n k, count (Some r) = Ok n -> count None = Ok k -> n <= k)
  /\ unread (User.id u) None w
     = List.length (filter (fun m => negb (includes (Message.readBy m) (User.id u)))
                           (messages w))
  /\ chat_rooms (snd (getUnreadCount env (Some u) roomId w)) = chat_rooms w
  /\ messages (snd (getUnreadCount env (Some u) roomId w)) = messages w.
Proof.
  intros Hup count. subst count. cbv beta.
  rewrite !getUnreadCount_run. cbv zeta. rewrite !Hup. cbn [fst snd].
  split; [reflexivity|]. split; [reflexivity|]. split.
  { intros r n k. rewrite getUnreadCount_run. cbv zeta. rewrite Hup. cbn [fst].
    intros H1 H2. injection H1 as <-. injection H2 as <-.
    unfold scope_of. destruct (r =? ""); [lia|apply unread_scoped_le]. }
  split; [|split; reflexivity].
  unfold unread. f_equal. apply filter_ext. intros m. cbn.
  now rewrite andb_true_r.
Qed.

Lemma getUnreadCount_scope_witness :
  fst (getUnreadCount Sample.up (Some Sample.u3) (Some "") Sample.office) = Ok 2.
Proof.
  rewrite (proj1 (getUnreadCount_scope Sample.up Sample.u3 (Some "")
                    Sample.office (fun _ _ => eq_refl))).
  reflexivity.
Defined.

(** ** Unread counts after a send *)

Lemma sendMessage_ok_appends env (u : User.t) (roomId : string) (content : utf16)
    (k : Message.kind) (w w' : World) (m : Message.t) :
  sendMessage env (Some u) roomId content k w = (Ok m, w') ->
  m = posted env u roomId content k w /\ messages w' = messages w ++ [m].
Proof.
  intros H.
  pose proof (sendMessage_appends env u roomId content k w) as Happ.
  rewrite sendMessage_run in H. cbv zeta in H.
  destruct (rejects env (List.length (wire w)) _) eqn:Hc; [discriminate|].
  specialize (Happ eq_refl).
  rewrite sendMessage_run in Happ. cbv zeta in Happ. rewrite Hc in Happ.
  destruct (rejects env (S _) _); [discriminate|].
  destruct (notifyMembers env u roomId _ _) as [[[]|e] w3]; [|discriminate].
  injection H as <- <-. now split.
Qed.

Lemma includes_single (a x : string) : includes [a] x = (a =? x).
Proof. unfold includes. cbn. apply orb_false_r. Qed.

(** X4. A completed [sendMessage] adds exactly one message, which carries
    the sender's receipt and no other: the sender's unread counts stay as
    they were, every other user's count goes up by one for the room of the
    message and over all rooms, and stays for any other room. *)
Theorem sendMessage_unread_counts env (u : User.t) (roomId : string) (content : utf16)
    (k : Message.kind) (w w' : World) (m : Message.t) :
  sendMessage env (Some u) roomId content k w = (Ok m, w') ->
  Message.readBy m = [User.id u]
  /\ (forall scope, unread (User.id u) scope w' = unread (User.id u) scope w)
  /\ (forall v, v <> User.id u ->
        unread v None w' = S (unread v None w)
        /\ unread v (Some roomId) w' = S (unread v (Some roomId) w)
        /\ (forall r, r <> roomId -> unread v (Some r) w' = unread v (Some r) w)).
Proof.
  intros H. destruct (sendMessage_ok_appends _ _ _ _ _ _ _ _ H) as [-> Hm].
  split; [reflexivity|].
  assert (Hcount : forall v scope,
             unread v scope w'
             = unread v scope w
               + (if message_matches (MsgUnread v scope)
                       (posted env u roomId content k w) then 1 else 0)).
  { intros v scope. unfold unread. rewrite Hm, filter_app, length_app.
    cbn [filter]. now destruct (message_matches _ _). }
  assert (Hm1 : forall v scope,
             message_matches (MsgUnread v scope)
               (posted env u roomId content k w)
             = negb (User.id u =? v)
               && match scope with Some r => roomId =? r | None => true end).
  { intros v scope. unfold posted.
    cbn [message_matches Message.readBy Message.roomId].
    now rewrite includes_single. }
  split.
  - intros scope. rewrite Hcount, Hm1, String.eqb_refl. cbn. lia.
  - intros v Hv. assert (Hne : (User.id u =? v) = false)
      by (apply String.eqb_neq; congruence).
    split; [|split].
    + rewrite Hcount, Hm1, Hne. cbn. lia.
    + rewrite Hcount, Hm1, Hne, String.eqb_refl. cbn. lia.
    + intros r Hr. rewrite Hcount, Hm1, Hne.
      assert (Hrr : (roomId =? r) = false) by (apply String.eqb_neq; congruence).
      rewrite Hrr. cbn. lia.
Qed.

Lemma sendMessage_unread_counts_witness :
  unread "u3" None Sample.office = 2
  /\ unread "u3" None
       (snd (sendMessage Sample.up (Some Sample.u1) "r1" (units "hello") Message.text
                         Sample.office))
     = 3.
Proof.
  split; [reflexivity|].
  destruct (sendMessage Sample.up (Some Sample.u1) "r1" (units "hello") Message.text
              Sample.office) as [[m|e] w'] eqn:E.
  - destruct (sendMessage_unread_counts _ _ _ _ _ _ _ _ E) as (_ & _ & H).
    cbn [snd]. rewrite (proj1 (H "u3" ltac:(discriminate))). reflexivity.
  - vm_compute in E. discriminate.
Defined.

(** ** Unread counts after markAsRead *)

Lemma receipts_grow_roomId (m m' : Message.t) :
  receipts_grow m m' ->
  Message.roomId m' = Message.roomId m /\ Message.id m' = Message.id m.
Proof. intros [H _]. rewrite H. now split. Qed.

Lemma receipts_grow_unread (v : string) (scope : option string)
    (m m' : Message.t) :
  receipts_grow m m' ->
  message_matches (MsgUnread v scope) m' = true ->
  message_matches (MsgUnread v scope) m = true.
Proof.
  intros Hg. destruct (receipts_grow_roomId _ _ Hg) as [Hr _].
  destruct Hg as [_ Hincl]. cbn. rewrite Hr.
  rewrite !andb_true_iff, !negb_true_iff, !includes_false.
  intros [Hn Hs]. split; [|exact Hs]. intros Hin. apply Hn. now apply Hincl.
Qed.

Lemma grow_unread_le (v : string) (scope : option string)
    (l l' : list Message.t) :
  Forall2 receipts_grow l l' ->
  List.length (filter (message_matches (MsgUnread v scope)) l')
  <= List.length (filter (message_matches (MsgUnread v scope)) l).
Proof.
  induction 1 as [|m m' l l' Hm Hl IH]; [reflexivity|].
  cbn [filter].
  destruct (message_matches (MsgUnread v scope) m') eqn:E'.
  - rewrite (receipts_grow_unread _ _ _ _ Hm E'). cbn. lia.
  - destruct (message_matches (MsgUnread v scope) m); cbn; lia.
Qed.

(** Patching the first hit moves a count by what the patch does to that
    record. *)
Lemma count_update_first {A} (hit p : A -> bool) (f : A -> A) (l : list A)
    (m : A) :
  hd_error (filter hit l) = Some m ->
  List.length (filter p (update_first hit f l)) + (if p m then 1 else 0)
  = List.length (filter p l) + (if p (f m) then 1 else 0).
Proof.
  induction l as [|x l IH]; cbn; [discriminate|].
  destruct (hit x).
  - cbn. intros H. injection H as ->. cbn.
    destruct (p m), (p (f m)); cbn; lia.
  - intros H. specialize (IH H). cbn. destruct (p x); cbn; lia.
Qed.

Lemma markAsRead_single_run env (u : User.t) (messageId : string) (w : World) :
  markAsRead env (Some u) [messageId] w
  = match mark_one env u messageId w with
    | (Ok _, w') => (Ok tt, w')
    | (Err e, w') => (Err e, w')
    end.
Proof.
  rewrite markAsRead_loop. cbn [for_each]. unfold bind, ret.
  now destruct (mark_one env u messageId w) as [[[]|e] w'].
Qed.

(** X5. Marking never makes anything unread: over any [markAsRead] call,
    whoever calls it and whatever the store answers, no user's unread
    count, for one room or for all, goes up.  With the store answering,
    marking one message the caller has not read yet takes exactly one off
    the caller's count over all rooms and leaves every other user's counts
    as they were. *)
Theorem markAsRead_unread_counts env (user : option User.t)
    (ids : list string) (w : World) :
  (forall v scope,
      unread v scope (snd (markAsRead env user ids w)) <= unread v scope w)
  /\ (forall u messageId m,
        reliable env ->
        message_of messageId w = Some m ->
        includes (Message.readBy m) (User.id u) = false ->
        let w' := snd (markAsRead env (Some u) [messageId] w) in
        S (unread (User.id u) None w') = unread (User.id u) None w
        /\ forall v scope, v <> User.id u -> unread v scope w' = unread v scope w).
Proof.
  split.
  - intros v scope. unfold unread. apply grow_unread_le, markAsRead_grows.
  - intros u messageId m Hup Hm Hin w'. subst w'.
    rewrite markAsRead_single_run, mark_one_run. cbv zeta.
    rewrite Hup, Hm, Hin, Hup. cbn [snd]. unfold unread. cbn [messages].
    unfold message_of in Hm. split.
    + pose proof (count_update_first
                    (fun x => Message.id x =? messageId)
                    (message_matches (MsgUnread (User.id u) None))
                    (patch_message (SetReadBy (Message.readBy m ++ [User.id u])))
                    (messages w) m Hm) as H.
      cbn [message_matches patch_message Message.readBy] in H.
      rewrite includes_app_r, Hin in H. cbn in H. lia.
    + intros v scope Hv.
      pose proof (count_update_first
                    (fun x => Message.id x =? messageId)
                    (message_matches (MsgUnread v scope))
                    (patch_message (SetReadBy (Message.readBy m ++ [User.id u])))
                    (messages w) m Hm) as H.
      assert (Hsame : message_matches (MsgUnread v scope)
                        (patch_message
                           (SetReadBy (Message.readBy m ++ [User.id u])) m)
                      = message_matches (MsgUnread v scope) m).
      { cbn. f_equal. f_equal. unfold includes. rewrite existsb_app. cbn.
        assert (E : (User.id u =? v) = false)
          by (apply String.eqb_neq; congruence).
        now rewrite E, !orb_false_r. }
      rewrite Hsame in H. lia.
Qed.

(** Scenario 3: [u3] has read nothing; reading [m1] leaves one unread. *)
Lemma markAsRead_unread_counts_witness :
  unread "u3" None Sample.office = 2
  /\ unread "u3" None
       (snd (markAsRead Sample.up (Some Sample.u3) ["m1"] Sample.office)) = 1.
Proof.
  split; [reflexivity|].
  destruct (proj2 (markAsRead_unread_counts Sample.up None [] Sample.office)
              Sample.u3 "m1" Sample.hi (fun _ _ => eq_refl) eq_refl eq_refl)
    as [H _].
  apply eq_add_S. exact H.
Defined.

(** ** markAsRead over a batch *)

Lemma for_each_app {A} (body : A -> M unit) (l1 l2 : list A) (w : World) :
  for_each (l1 ++ l2) body w
  = match for_each l1 body w with
    | (Ok _, w1) => for_each l2 body w1
    | (Err e, w1) => (Err e, w1)
    end.
Proof.
  revert w. induction l1 as [|x l1 IH]; intros w; [reflexivity|].
  cbn [app for_each]. unfold bind.
  destruct (body x w) as [[[]|e] w1]; [apply IH|reflexivity].
Qed.

Lemma grow_message_of (messageId : string) (l l' : list Message.t) :
  Forall2 receipts_grow l l' ->
  match hd_error (filter (message_matches (MsgId messageId)) l') with
  | Some m' =>
      exists m, hd_error (filter (message_matches (MsgId messageId)) l) = Some m
                /\ receipts_grow m m'
  | None => hd_error (filter (message_matches (MsgId messageId)) l) = None
  end.
Proof.
  induction 1 as [|m m' l l' Hm Hl IH]; [reflexivity|].
  cbn [filter message_matches].
  destruct (receipts_grow_roomId _ _ Hm) as [_ ->].
  destruct (Message.id m =? messageId); [|exact IH].
  cbn. now exists m.
Qed.

Lemma mark_one_up env (u : User.t) (messageId : string) (w : World) :
  reliable env -> fst (mark_one env u messageId w) = Ok tt.
Proof.
  intros Hup. rewrite mark_one_run. cbv zeta. rewrite Hup.
  destruct (message_of messageId w) as [m|]; [|reflexivity].
  destruct (includes _ _); [reflexivity|]. now rewrite Hup.
Qed.

Lemma markAsRead_up env (u : User.t) (ids : list string) :
  reliable env -> forall w, fst (markAsRead env (Some u) ids w) = Ok tt.
Proof.
  intros Hup. rewrite markAsRead_loop.
  induction ids as [|i ids IH]; intros w; [reflexivity|].
  cbn [for_each]. unfold bind.
  pose proof (mark_one_up env u i w Hup) as H1.
  destruct (mark_one env u i w) as [[[]|e] w1]; [apply IH|discriminate].
Qed.

Lemma markAsRead_all_marked env (u : User.t) (ids : list string) :
  forall w w',
    markAsRead env (Some u) ids w = (Ok tt, w') ->
    forall messageId m,
      In messageId ids ->
      message_of messageId w' = Some m ->
      In (User.id u) (Message.readBy m).
Proof.
  rewrite markAsRead_loop.
  induction ids as [|i ids IH]; intros w w' H messageId m Hin Hm; [destruct Hin|].
  cbn [for_each] in H. unfold bind in H.
  destruct (mark_one env u i w) as [[[]|e] w1] eqn:H1; [|discriminate].
  destruct Hin as [->|Hin]; [|now apply (IH w1 w' H messageId m)].
  assert (Hsingle : markAsRead env (Some u) [messageId] w = (Ok tt, w1))
    by now rewrite markAsRead_single_run, H1.
  pose proof (markAsRead_marks _ _ _ _ _ Hsingle) as Hmark.
  pose proof (markAsRead_grows env (Some u) ids w1) as Hg.
  rewrite markAsRead_loop, H in Hg. cbn [snd] in Hg.
  pose proof (grow_message_of messageId _ _ Hg) as Hrel.
  unfold message_of in Hm, Hmark. rewrite Hm in Hrel.
  destruct Hrel as (m1 & Hm1 & [_ Hincl]). rewrite Hm1 in Hmark.
  apply Hincl. now apply includes_In.
Qed.

(** X6. [markAsRead] goes through the ids in order.  An id that resolves to
    no message is skipped: with every service up the call completes for
    any list of ids.  A call that completes leaves the caller's receipt on
    the message of every id listed.  A request that fails ends the call:
    if the ids up to some id went through and the call for that id alone
    would fail, the call for the whole list fails the same way at the same
    point, and nothing is tried for the ids after it. *)
Theorem markAsRead_batch env (u : User.t) (ids : list string) (w : World) :
  (reliable env -> fst (markAsRead env (Some u) ids w) = Ok tt)
  /\ (forall w' messageId m,
        markAsRead env (Some u) ids w = (Ok tt, w') ->
        In messageId ids ->
        message_of messageId w' = Some m ->
        In (User.id u) (Message.readBy m))
  /\ (forall done messageId rest w1 e w2,
        ids = done ++ messageId :: rest ->
        markAsRead env (Some u) done w = (Ok tt, w1) ->
        markAsRead env (Some u) [messageId] w1 = (Err e, w2) ->
        markAsRead env (Some u) ids w = (Err e, w2)).
Proof.
  split; [|split].
  - intros Hup. now apply markAsRead_up.
  - intros w' messageId m H. now apply (markAsRead_all_marked env u ids w w').
  - intros done messageId rest w1 e w2 -> Hdone Hfail.
    rewrite markAsRead_loop in *. rewrite for_each_app, Hdone.
    cbn [for_each] in *. unfold bind in *.
    destruct (mark_one env u messageId w1) as [[[]|e1] w3]; [discriminate|].
    cbn in Hfail. exact Hfail.
Qed.

(** The store refuses the lookup of ["m2"] only: ["m1"] is marked, the
    call fails, ["m2"] is not marked. *)
Lemma markAsRead_batch_witness :
  let env := mkEnv (fun _ r => match r with
                               | FindMessages (MsgId "m2") _ _ => true
                               | _ => false
                               end)
                   Sample.ids (Sample.ticking Sample.times) in
  let r := markAsRead env (Some Sample.u3) ["m1"; "m2"] Sample.office in
  fst r = Err ApiError
  /\ map Message.readBy (messages (snd r)) = [["u1"; "u3"]; ["u2"]].
Proof.
  intros env r. subst r.
  pose (w1 := snd (markAsRead env (Some Sample.u3) ["m1"] Sample.office)).
  pose (w2 := snd (markAsRead env (Some Sample.u3) ["m2"] w1)).
  assert (H1 : markAsRead env (Some Sample.u3) ["m1"] Sample.office = (Ok tt, w1))
    by reflexivity.
  assert (H2 : markAsRead env (Some Sample.u3) ["m2"] w1 = (Err ApiError, w2))
    by reflexivity.
  rewrite (proj2 (proj2 (markAsRead_batch env Sample.u3 ["m1"; "m2"]
                           Sample.office))
             ["m1"] "m2" [] w1 ApiError w2 eq_refl H1 H2).
  split; reflexivity.
Defined.

(** ** What leaveRoom leaves alone *)

Lemma without_absent (x : string) (l : list string) :
  ~ In x l -> without x l = l.
Proof.
  unfold without. induction l as [|y l IH]; cbn; [reflexivity|].
  intros H. destruct (String.eqb_spec y x) as [->|Hne]; cbn.
  - exfalso. apply H. now left.
  - rewrite IH; [reflexivity|]. intros Hin. apply H. now right.
Qed.

Lemma update_first_same {A} (hit : A -> bool) (f : A -> A) (l : list A) (m : A) :
  hd_error (filter hit l) = Some m -> f m = m -> update_first hit f l = l.
Proof.
  induction l as [|x l IH]; cbn; [discriminate|].
  destruct (hit x); cbn.
  - intros H Hf. injection H as ->. now rewrite Hf.
  - intros H Hf. now rewrite IH.
Qed.

Lemma filter_update_first_others {A} (hit : A -> bool) (f : A -> A)
    (l : list A) :
  (forall x, hit (f x) = hit x) ->
  filter (fun x => negb (hit x)) (update_first hit f l)
  = filter (fun x => negb (hit x)) l.
Proof.
  intros Hf. induction l as [|x l IH]; cbn; [reflexivity|].
  destruct (hit x) eqn:E; cbn.
  - now rewrite Hf, E.
  - now rewrite E, IH.
Qed.

Lemma filter_idem {A} (p : A -> bool) (l : list A) :
  filter p (filter p l) = filter p l.
Proof.
  induction l as [|x l IH]; cbn; [reflexivity|].
  destruct (p x) eqn:E; cbn; [rewrite E|]; now rewrite IH.
Qed.

Lemma leaveRoom_messages env (user : option User.t) (roomId : string)
    (w : World) :
  messages (snd (leaveRoom env user roomId w)) = messages w.
Proof.
  destruct user as [u|]; [|reflexivity]. rewrite leaveRoom_run. cbv zeta.
  destruct (rejects env _ _); [reflexivity|].
  destruct (room_of roomId w); [|reflexivity].
  now destruct (rejects env _ _).
Qed.

(** X7. [leaveRoom] touches one room and nothing else.  Whatever the call
    does, the messages of the store are as before, also those of a room
    that it deletes, and so are the rooms under any other id.  The caller
    is filtered out at every position of the member list.  A caller who is
    not a member of the room still has the store rewrite the member list
    as it is. *)
Theorem leaveRoom_frame env (user : option User.t) (roomId : string)
    (w : World) :
  let w' := snd (leaveRoom env user roomId w) in
  messages w' = messages w
  /\ filter (fun r => negb (ChatRoom.id r =? roomId)) (chat_rooms w')
     = filter (fun r => negb (ChatRoom.id r =? roomId)) (chat_rooms w)
  /\ (forall u room,
        user = Some u ->
        fst (leaveRoom env user roomId w) = Ok tt ->
        room_of roomId w' = Some room ->
        ~ In (User.id u) (ChatRoom.members room))
  /\ (forall u room,
        user = Some u ->
        reliable env ->
        room_of roomId w = Some room ->
        ChatRoom.members room <> [] ->
        ~ In (User.id u) (ChatRoom.members room) ->
        chat_rooms w' = chat_rooms w
        /\ issued w w'
           = [(FindRooms (RoomId roomId) None (Some 1), true);
              (UpdateRoom roomId (SetMembers (ChatRoom.members room)), true)]).
Proof.
  intros w'. subst w'. destruct user as [u|].
  2:{ cbn. repeat split; intros; discriminate. }
  rewrite leaveRoom_run. cbv zeta.
  destruct (rejects env _ _) eqn:Hf.
  { cbn [fst snd with_wire chat_rooms messages].
    split; [reflexivity|]. split; [reflexivity|]. split.
    - intros; discriminate.
    - intros u0 room _ Hup. now rewrite Hup in Hf. }
  destruct (room_of roomId w) as [room0|] eqn:Hroom.
  2:{ cbn [fst snd with_wire chat_rooms messages].
      split; [reflexivity|]. split; [reflexivity|]. split; intros; discriminate. }
  cbv zeta.
  destruct (rejects env (S _) _) eqn:Hw.
  { cbn [fst snd with_wire chat_rooms messages].
    split; [reflexivity|]. split; [reflexivity|]. split.
    - intros; discriminate.
    - intros u0 room _ Hup. now rewrite Hup in Hw. }
  cbn [fst snd chat_rooms messages]. split; [reflexivity|]. split; [|split].
  - destruct (without (User.id u) (ChatRoom.members room0)) as [|y ys].
    + apply filter_idem.
    + apply (filter_update_first_others (fun r => ChatRoom.id r =? roomId)).
      intros x. unfold with_members. now rewrite patch_room_id.
  - intros u0 room E _. injection E as <-.
    destruct (without (User.id u) (ChatRoom.members room0)) as [|y ys] eqn:Hms.
    + now rewrite room_of_deleted.
    + unfold with_members. rewrite room_of_updated.
      unfold room_of in Hroom. rewrite Hroom. cbn [option_map].
      intros H. injection H as <-. cbn [patch_room ChatRoom.members].
      rewrite <- Hms. intros Hin. apply in_without in Hin. tauto.
  - intros u0 room E Hup H Hne Hnot. injection E as <-. injection H as <-.
    rewrite (without_absent _ _ Hnot).
    destruct (ChatRoom.members room0) as [|y ys] eqn:Hms; [congruence|].
    split.
    + apply (update_first_same _ _ _ room0).
      * exact Hroom.
      * unfold with_members. rewrite <- Hms. apply with_members_id.
    + unfold issued. cbn [wire].
      now rewrite skipn_app, skipn_all, Nat.sub_diag.
Qed.

(** The last member leaves: the room goes, its two messages stay. *)
Lemma leaveRoom_frame_witness :
  let solo := mkWorld [ChatRoom.mk "r1" "solo" ChatRoom.group ["u1"] "" ""]
                      [Sample.hi; Sample.yo] [] 0 in
  let w' := snd (leaveRoom Sample.up (Some Sample.u1) "r1" solo) in
  chat_rooms w' = [] /\ messages w' = [Sample.hi; Sample.yo].
Proof.
  intros solo w'. split; [reflexivity|].
  exact (proj1 (leaveRoom_frame Sample.up (Some Sample.u1) "r1" solo)).
Defined.

(** ** Every operation, request by request *)

Lemma createDirectRoom_run env (u : User.t) (other : string) (w : World) :
  let n := List.length (wire w) in
  let ms := js_sort [User.id u; other] in
  let find := FindRooms (direct_query (User.id u) other) None None in
  let c := clock env (clock_reads w) in
  let t := clock env (S (clock_reads w)) in
  let create := CreateRoom "" ChatRoom.direct ms c t in
  let r := ChatRoom.mk (assign_id env (S n)) "" ChatRoom.direct ms c t in
  createDirectRoom env (Some u) other w
  = if rejects env n find
    then (Err ApiError, with_wire w [(find, false)])
    else match direct_rooms (User.id u) other w with
         | found :: _ => (Ok found, with_wire w [(find, true)])
         | [] =>
             if rejects env (S n) create
             then (Err ApiError,
                   mkWorld (chat_rooms w) (messages w)
                           (wire w ++ [(find, true); (create, false)])
                           (S (S (clock_reads w))))
             else (Ok r,
                   mkWorld (chat_rooms w ++ [r]) (messages w)
                           (wire w ++ [(find, true); (create, true)])
                           (S (S (clock_reads w))))
         end.
Proof.
  cbv zeta. unfold createDirectRoom, authenticated, find_rooms, bind, ret, fetch.
  fold (direct_query (User.id u) other).
  destruct (rejects env _ (FindRooms _ _ _)); [reflexivity|].
  unfold select, limited, ordered, limit_param.
  fold (direct_rooms (User.id u) other w).
  destruct (direct_rooms (User.id u) other w) as [|found rest]; [|reflexivity].
  unfold now, create_room, fetch, logged, serve.
  cbn [wire chat_rooms messages clock_reads].
  rewrite length_app. cbn [List.length]. rewrite Nat.add_1_r.
  destruct (rejects env _ _); cbn [wire chat_rooms messages clock_reads];
    rewrite <- app_assoc; reflexivity.
Qed.

Lemma js_sort_pair_cases (a b : string) :
  js_sort [a; b] = [a; b] \/ js_sort [a; b] = [b; a].
Proof. unfold js_sort. cbn. destruct (js_lt b a); auto. Qed.

Lemma no_empty_room_app (w : World) (r : ChatRoom.t) (ms : list Message.t)
    (wr : list (Request * bool)) (c : nat) :
  no_empty_room w -> ChatRoom.members r <> [] ->
  no_empty_room (mkWorld (chat_rooms w ++ [r]) ms wr c).
Proof.
  unfold no_empty_room. cbn [chat_rooms]. intros H Hr.
  apply Forall_app. split; [exact H|]. now repeat constructor.
Qed.

Lemma mark_one_rooms env (u : User.t) (messageId : string) (w : World) :
  chat_rooms (snd (mark_one env u messageId w)) = chat_rooms w.
Proof.
  rewrite mark_one_run. cbv zeta.
  destruct (rejects env _ _); [reflexivity|].
  destruct (message_of messageId w); [|reflexivity].
  destruct (includes _ _); [reflexivity|].
  now destruct (rejects env _ _).
Qed.

Lemma markAsRead_rooms env (user : option User.t) (ids : list string) :
  forall w, chat_rooms (snd (markAsRead env user ids w)) = chat_rooms w.
Proof.
  destruct user as [u|]; [|reflexivity]. rewrite markAsRead_loop.
  induction ids as [|i ids IH]; intros w; [reflexivity|].
  cbn [for_each]. unfold bind.
  pose proof (mark_one_rooms env u i w) as H1.
  destruct (mark_one env u i w) as [[[]|e] w1]; cbn [snd] in *; [|exact H1].
  now rewrite IH.
Qed.

Lemma sendMessage_effect env (user : option User.t) (roomId : string) (content : utf16)
    (k : Message.kind) (w : World) :
  let w' := snd (sendMessage env user roomId content k w) in
  (chat_rooms w' = chat_rooms w
   \/ exists t, chat_rooms w'
                = update_first (fun r => ChatRoom.id r =? roomId)
                               (patch_room (SetLastMessageAt t)) (chat_rooms w))
  /\ (messages w' = messages w \/ exists m, messages w' = messages w ++ [m]).
Proof.
  cbv zeta. destruct user as [u|]; [|cbn; auto].
  rewrite sendMessage_run. cbv zeta.
  destruct (rejects env _ _); [cbn; auto|].
  destruct (rejects env _ _).
  { cbn [snd chat_rooms messages]. split; [now left|right; now eexists]. }
  pose proof (notifyMembers_frame env u roomId (posted env u roomId content k w)
                (stored env u roomId content k w)) as [Hr Hm].
  destruct (notifyMembers env u roomId _ _) as [[[]|e] w3]; cbn [snd] in *;
    rewrite Hr, Hm; unfold stored; cbn [chat_rooms messages];
    (split; right; now eexists).
Qed.

Lemma read_only_run env (user : option User.t) (c : Call) (w : World) :
  reads_only c = true ->
  exists find ok,
    perform env user c w = w \/ perform env user c w = with_wire w [(find, ok)].
Proof.
  destruct c; try discriminate; intros _; cbn [perform];
    destruct user as [u|];
    try (exists (FindRooms (RoomId ""%string) None None), true; left; reflexivity).
  - rewrite getRooms_run. cbv zeta.
    destruct (rejects env _ _); eexists _, _; right; reflexivity.
  - rewrite getMessages_run. cbv zeta.
    destruct (rejects env _ _); eexists _, _; right; reflexivity.
  - rewrite getUnreadCount_run. cbv zeta.
    destruct (rejects env _ _); eexists _, _; right; reflexivity.
  - rewrite getOnlineUsers_run. cbv zeta.
    destruct (rejects env _ _); eexists _, _; right; reflexivity.
  - rewrite getOnlineUsers_run. cbv zeta.
    destruct (rejects env _ _); eexists _, _; right; reflexivity.
Qed.

Lemma perform_no_empty_room env (user : option User.t) (c : Call) (w : World) :
  no_empty_room w -> no_empty_room (perform env user c w).
Proof.
  intros Hinv.
  destruct (reads_only c) eqn:Hro.
  { destruct (read_only_run env user c w Hro) as (find & ok & [-> | ->]);
      exact Hinv. }
  destruct c; try discriminate; cbn [perform].
  - destruct user as [u|]; [|exact Hinv].
    rewrite createDirectRoom_run. cbv zeta.
    destruct (rejects env _ _); [exact Hinv|].
    destruct (direct_rooms _ _ _); [|exact Hinv].
    destruct (rejects env _ _); [exact Hinv|].
    apply no_empty_room_app; [exact Hinv|]. cbn [snd ChatRoom.members].
    destruct (js_sort_pair_cases (User.id u) otherUserId) as [-> | ->];
      discriminate.
  - destruct user as [u|]; [|exact Hinv].
    rewrite createGroupRoom_run. cbv zeta.
    destruct (rejects env _ _); [exact Hinv|].
    apply no_empty_room_app; [exact Hinv|]. discriminate.
  - now apply leaveRoom_keeps_no_empty_room.
  - destruct (sendMessage_effect env user roomId content k w) as [[Hr|[t Hr]] _];
      unfold no_empty_room; rewrite Hr; [exact Hinv|].
    apply Forall_update_first; [|exact Hinv]. intros r Hne. exact Hne.
  - unfold no_empty_room. now rewrite markAsRead_rooms.
Qed.

Lemma messages_kept_refl (l : list Message.t) : messages_kept l l.
Proof. exists l, []. split; [now rewrite app_nil_r|apply grow_refl]. Qed.

Lemma messages_kept_trans (l1 l2 l3 : list Message.t) :
  messages_kept l1 l2 -> messages_kept l2 l3 -> messages_kept l1 l3.
Proof.
  intros (o1 & a1 & -> & H1) (o2 & a2 & -> & H2).
  apply Forall2_app_inv_l in H2. destruct H2 as (p & q & Hp & Hq & ->).
  exists p, (q ++ a2). split; [now rewrite app_assoc|].
  eapply grow_trans; eassumption.
Qed.

Lemma perform_messages_kept env (user : option User.t) (c : Call) (w : World) :
  messages_kept (messages w) (messages (perform env user c w)).
Proof.
  destruct (reads_only c) eqn:Hro.
  { destruct (read_only_run env user c w Hro) as (find & ok & [-> | ->]);
      apply messages_kept_refl. }
  destruct c; try discriminate; cbn [perform].
  - destruct user as [u|]; [|apply messages_kept_refl].
    rewrite createDirectRoom_run. cbv zeta.
    destruct (rejects env _ _); [apply messages_kept_refl|].
    destruct (direct_rooms _ _ _); [|apply messages_kept_refl].
    destruct (rejects env _ _); apply messages_kept_refl.
  - destruct user as [u|]; [|apply messages_kept_refl].
    rewrite createGroupRoom_run. cbv zeta.
    destruct (rejects env _ _); apply messages_kept_refl.
  - rewrite leaveRoom_messages. apply messages_kept_refl.
  - destruct (sendMessage_effect env user roomId content k w) as [_ [Hm|[m Hm]]];
      rewrite Hm; [apply messages_kept_refl|].
    exists (messages w), [m]. split; [reflexivity|apply grow_refl].
  - exists (messages (snd (markAsRead env user messageIds w))), [].
    split; [now rewrite app_nil_r|apply markAsRead_grows].
Qed.

Lemma perform_all_no_empty_room env (calls : list (option User.t * Call)) :
  forall w, no_empty_room w -> no_empty_room (perform_all env calls w).
Proof.
  induction calls as [|[user c] calls IH]; intros w Hinv; [exact Hinv|].
  apply IH. now apply perform_no_empty_room.
Qed.

Lemma perform_all_messages_kept env (calls : list (option User.t * Call)) :
  forall w, messages_kept (messages w) (messages (perform_all env calls w)).
Proof.
  induction calls as [|[user c] calls IH]; intros w.
  - apply messages_kept_refl.
  - cbn [perform_all fold_left fst snd].
    eapply messages_kept_trans; [apply perform_messages_kept|apply IH].
Qed.

(** X8. Two invariants of the whole interface.  Over any run of room and
    message operations, by whatever callers, with or without a session,
    and whatever the services answer: (1) a store without a room of no
    members stays one, so every room reachable from the empty store has a
    member; (2) no message is ever removed, moved or rewritten, except
    that its receipts may grow: the messages the store held are the first
    messages it holds afterwards, each with at least the receipts it had. *)
Theorem operations_keep_rooms_and_messages env
    (calls : list (option User.t * Call)) (w : World) :
  (no_empty_room w -> no_empty_room (perform_all env calls w))
  /\ no_empty_room (perform_all env calls (mkWorld [] [] [] 0))
  /\ messages_kept (messages w) (messages (perform_all env calls w)).
Proof.
  split; [apply perform_all_no_empty_room|].
  split; [apply perform_all_no_empty_room; constructor|].
  apply perform_all_messages_kept.
Qed.

(** ** Reading *)

(** X9. The four reading operations ([getRooms], [getMessages],
    [getUnreadCount], [getOnlineUsers]) never write: with or without a
    session, answered or refused, such a call leaves rooms, messages and
    clock as they were, issues at most one request, and that request is
    neither a store write nor a notifier call. *)
Theorem reading_never_writes env (user : option User.t) (c : Call) (w : World) :
  reads_only c = true ->
  let w' := perform env user c w in
  chat_rooms w' = chat_rooms w
  /\ messages w' = messages w
  /\ clock_reads w' = clock_reads w
  /\ List.length (issued w w') <= 1
  /\ filter (fun q => is_write (fst q)) (issued w w') = []
  /\ sends (issued w w') = [].
Proof.
  intros Hro w'. subst w'.
  assert (H : exists l,
             perform env user c w = with_wire w l
             /\ List.length l <= 1
             /\ filter (fun q => is_write (fst q)) l = []
             /\ sends l = []).
  { destruct c; try discriminate; cbn [perform]; destruct user as [u|];
      try (exists []; rewrite with_wire_nil; repeat split; cbn; lia).
    - rewrite getRooms_run. cbv zeta.
      destruct (rejects env _ _); eexists [_]; repeat split; cbn; lia.
    - rewrite getMessages_run. cbv zeta.
      destruct (rejects env _ _); eexists [_]; repeat split; cbn; lia.
    - rewrite getUnreadCount_run. cbv zeta.
      destruct (rejects env _ _); eexists [_]; repeat split; cbn; lia.
    - rewrite getOnlineUsers_run. cbv zeta.
      destruct (rejects env _ _); eexists [_]; repeat split; cbn; lia.
    - rewrite getOnlineUsers_run. cbv zeta.
      destruct (rejects env _ _); eexists [_]; repeat split; cbn; lia. }
  destruct H as (l & -> & Hlen & Hw & Hs).
  rewrite issued_with_wire. cbn [with_wire chat_rooms messages clock_reads].
  repeat split; assumption.
Qed.

Lemma reading_never_writes_witness :
  messages (perform Sample.up (Some Sample.u1) (CallGetMessages "r1" (Some 1))
                    Sample.office)
  = [Sample.hi; Sample.yo].
Proof.
  apply (reading_never_writes Sample.up (Some Sample.u1)
           (CallGetMessages "r1" (Some 1)) Sample.office eq_refl).
Defined.

Lemma operations_keep_rooms_and_messages_witness :
  no_empty_room Sample.office
  /\ no_empty_room
       (perform_all Sample.up
          [(Some Sample.u2, CallLeaveRoom "r1");
           (Some Sample.u1, CallSendMessage "r1" (units "bye") Message.text);
           (Some Sample.u1, CallLeaveRoom "r1");
           (None, CallCreateGroupRoom "x" []);
           (Some Sample.u3, CallLeaveRoom "r1")]
          Sample.office).
Proof.
  assert (H : no_empty_room Sample.office)
    by (repeat constructor; discriminate).
  split; [exact H|].
  apply (proj1 (operations_keep_rooms_and_messages Sample.up _ Sample.office)).
  exact H.
Defined.

(** ** Direct rooms *)

(** X10. When the pair has no direct room and the store answers,
    [createDirectRoom] creates one: type direct, empty name, and as
    members the caller's id and the other id, two entries, the smaller id
    first.  The two ids are not compared: asked for a room with oneself
    the caller gets a room whose two members are both the caller. *)
Theorem createDirectRoom_creates_sorted_pair env (u : User.t) (other : string)
    (w : World) :
  let n := List.length (wire w) in
  let ms := js_sort [User.id u; other] in
  let create := CreateRoom "" ChatRoom.direct ms (clock env (clock_reads w))
                           (clock env (S (clock_reads w))) in
  rejects env n (FindRooms (direct_query (User.id u) other) None None) = false ->
  direct_rooms (User.id u) other w = [] ->
  rejects env (S n) create = false ->
  exists r w',
    createDirectRoom env (Some u) other w = (Ok r, w')
    /\ chat_rooms w' = chat_rooms w ++ [r]
    /\ ChatRoom.type r = ChatRoom.direct
    /\ ChatRoom.name r = ""
    /\ (exists a b, ChatRoom.members r = [a; b] /\ js_lt b a = false)
    /\ Permutation (ChatRoom.members r) [User.id u; other]
    /\ (other = User.id u -> ChatRoom.members r = [User.id u; User.id u]).
Proof.
  intros n ms create Hf Hnone Hc. rewrite createDirectRoom_run. cbv zeta.
  fold n ms create. rewrite Hf, Hnone, Hc. eexists _, _.
  split; [reflexivity|]. cbn [chat_rooms ChatRoom.type ChatRoom.name ChatRoom.members].
  split; [reflexivity|]. split; [reflexivity|]. split; [reflexivity|].
  subst ms. unfold js_sort. cbn [sort_by insert_by].
  destruct (js_lt other (User.id u)) eqn:E.
  - split; [exists other, (User.id u); split; [reflexivity|now apply js_lt_asym]|].
    split; [apply perm_swap|]. intros ->. now rewrite js_lt_irrefl in E.
  - split; [exists (User.id u), other; now split|].
    split; [reflexivity|]. now intros ->.
Qed.

Lemma createDirectRoom_creates_sorted_pair_witness :
  exists r w',
    createDirectRoom Sample.up (Some Sample.u2) "u2" Sample.office = (Ok r, w')
    /\ ChatRoom.members r = ["u2"; "u2"].
Proof.
  destruct (createDirectRoom_creates_sorted_pair Sample.up Sample.u2 "u2"
              Sample.office eq_refl eq_refl eq_refl)
    as (r & w' & H & _ & _ & _ & _ & _ & Hself).
  exists r, w'. split; [exact H|]. now apply Hself.
Defined.

Lemma update_first_app_miss {A} (hit : A -> bool) (f : A -> A) (l1 l2 : list A) :
  filter hit l1 = [] ->
  update_first hit f (l1 ++ l2) = l1 ++ update_first hit f l2.
Proof.
  induction l1 as [|x l1 IH]; cbn; [reflexivity|].
  destruct (hit x); [discriminate|]. intros H. now rewrite IH.
Qed.

Lemma room_of_none_filter (roomId : string) (w : World) :
  room_of roomId w = None ->
  filter (fun r => ChatRoom.id r =? roomId) (chat_rooms w) = [].
Proof.
  unfold room_of. cbn [room_matches].
  destruct (filter _ (chat_rooms w)); [reflexivity|discriminate].
Qed.

Lemma without_pair (a b : string) :
  a <> b -> without a (js_sort [a; b]) = [b].
Proof.
  intros Hne. unfold without.
  assert (Eab : (b =? a) = false) by (apply String.eqb_neq; congruence).
  destruct (js_sort_pair_cases a b) as [-> | ->]; cbn;
    rewrite String.eqb_refl, Eab; reflexivity.
Qed.

Lemma single_is_no_pair (a b c : string) : list_eqb [c] (js_sort [a; b]) = false.
Proof.
  unfold list_eqb.
  destruct (list_eq_dec string_dec [c] (js_sort [a; b])) as [E|]; [|reflexivity].
  destruct (js_sort_pair_cases a b) as [H|H]; rewrite H in E; discriminate.
Qed.

Lemma shrunk_room_is_no_match (a b c : string) (r : ChatRoom.t) :
  room_matches (direct_query a b) (with_members [c] r) = false.
Proof.
  unfold direct_query, with_members.
  cbn [room_matches patch_room ChatRoom.members].
  now rewrite single_is_no_pair, andb_false_r.
Qed.

(** X11. Leaving undoes the deduplication of direct rooms.  Take two
    different users without a direct room, a store that answers and hands
    out an id it has not used for a room.  The first opens the direct
    room and leaves it: the room stays, a direct room with the second as
    its only member.  When either then asks for the direct room of the
    pair, nothing matches and a second room is created beside it. *)
Theorem leaving_a_direct_room_defeats_dedup env (A B : User.t) (w : World) :
  let rid := assign_id env (S (List.length (wire w))) in
  reliable env ->
  User.id A <> User.id B ->
  direct_rooms (User.id A) (User.id B) w = [] ->
  room_of rid w = None ->
  exists r w1 w2,
    createDirectRoom env (Some A) (User.id B) w = (Ok r, w1)
    /\ ChatRoom.id r = rid
    /\ leaveRoom env (Some A) rid w1 = (Ok tt, w2)
    /\ room_of rid w2 = Some (with_members [User.id B] r)
    /\ (forall r2 w3,
          createDirectRoom env (Some B) (User.id A) w2 = (Ok r2, w3) ->
          chat_rooms w3 = chat_rooms w2 ++ [r2])
    /\ (forall r2 w3,
          createDirectRoom env (Some A) (User.id B) w2 = (Ok r2, w3) ->
          chat_rooms w3 = chat_rooms w2 ++ [r2])
    /\ exists r2 w3, createDirectRoom env (Some B) (User.id A) w2 = (Ok r2, w3).
Proof.
  intros rid Hup Hne Hnone Hfresh.
  pose proof (room_of_none_filter _ _ Hfresh) as Hmiss.
  assert (Hmiss' : filter (room_matches (RoomId rid)) (chat_rooms w) = [])
    by exact Hmiss.
  rewrite createDirectRoom_run. cbv zeta. rewrite !Hup, Hnone. fold rid.
  set (r := ChatRoom.mk rid "" ChatRoom.direct (js_sort [User.id A; User.id B])
                        (clock env (clock_reads w))
                        (clock env (S (clock_reads w)))).
  set (w1 := mkWorld (chat_rooms w ++ [r]) _ _ _).
  assert (Hr1 : room_of rid w1 = Some r).
  { unfold room_of, w1. cbn [chat_rooms].
    rewrite filter_app, Hmiss'. cbn. unfold rid. now rewrite String.eqb_refl. }
  assert (Hleave : leaveRoom env (Some A) rid w1
                   = (Ok tt,
                      mkWorld (chat_rooms w ++ [with_members [User.id B] r])
                              (messages w1)
                              (wire w1 ++ [(FindRooms (RoomId rid) None (Some 1), true);
                                           (UpdateRoom rid (SetMembers [User.id B]), true)])
                              (clock_reads w1))).
  { rewrite leaveRoom_run. cbv zeta. rewrite Hup, Hr1.
    change (ChatRoom.members r) with (js_sort [User.id A; User.id B]).
    rewrite (without_pair _ _ Hne), Hup. f_equal. unfold w1 at 1.
    cbn [chat_rooms]. rewrite (update_first_app_miss _ _ _ _ Hmiss).
    cbn. unfold rid. now rewrite String.eqb_refl. }
  set (w2 := mkWorld (chat_rooms w ++ [with_members [User.id B] r]) _ _ _) in Hleave.
  assert (Hgone : forall a b,
             direct_query a b = direct_query (User.id A) (User.id B) ->
             direct_rooms a b w2 = []).
  { intros a b Hq. unfold direct_rooms. rewrite Hq. unfold w2.
    cbn [chat_rooms]. rewrite filter_app.
    unfold direct_rooms in Hnone. rewrite Hnone. cbn [app filter].
    now rewrite shrunk_room_is_no_match. }
  assert (Hagain : forall (C : User.t) other r2 w3,
             direct_query (User.id C) other = direct_query (User.id A) (User.id B) ->
             createDirectRoom env (Some C) other w2 = (Ok r2, w3) ->
             chat_rooms w3 = chat_rooms w2 ++ [r2]).
  { intros C other r2 w3 Hq. rewrite createDirectRoom_run. cbv zeta.
    rewrite !Hup, (Hgone _ _ Hq). intros H. now injection H as <- <-. }
  exists r, w1, w2. split; [reflexivity|]. split; [reflexivity|].
  split; [exact Hleave|]. split.
  { unfold w2, with_members. unfold room_of. cbn [chat_rooms].
    rewrite filter_app, Hmiss'. cbn. unfold rid. now rewrite String.eqb_refl. }
  split; [intros r2 w3; apply Hagain, direct_query_comm|].
  split; [intros r2 w3; now apply Hagain|].
  rewrite createDirectRoom_run. cbv zeta.
  rewrite !Hup, (Hgone _ _ (direct_query_comm _ _)). now eexists _, _.
Qed.

Lemma leaving_a_direct_room_defeats_dedup_witness :
  exists r w1 w2,
    createDirectRoom Sample.up (Some Sample.u1) "u2" Sample.empty = (Ok r, w1)
    /\ leaveRoom Sample.up (Some Sample.u1) "id1" w1 = (Ok tt, w2)
    /\ option_map ChatRoom.members (room_of "id1" w2) = Some ["u2"]
    /\ List.length
         (chat_rooms (snd (createDirectRoom Sample.up (Some Sample.u2) "u1" w2)))
       = 2.
Proof.
  destruct (leaving_a_direct_room_defeats_dedup Sample.up Sample.u1 Sample.u2
              Sample.empty (fun _ _ => eq_refl) ltac:(discriminate)
              eq_refl eq_refl)
    as (r & w1 & w2 & H1 & _ & H2 & H3 & _ & _ & (r2 & w3 & H4)).
  exists r, w1, w2. split; [exact H1|]. split; [exact H2|].
  split; [exact (f_equal (option_map ChatRoom.members) H3)|].
  injection H1 as <- <-. injection H2 as <-. reflexivity.
Defined.

(** ** A new group, seen by its members *)

Lemma select_In {A} (matches : A -> bool) (key : A -> string) (o : option Dir)
    (l : list A) (x : A) :
  In x (select matches key o None l) <-> In x l /\ matches x = true.
Proof.
  unfold select, limited, ordered. rewrite <- filter_In.
  destruct o as [[|]|]; [| |reflexivity]; split;
    apply Permutation_in; try apply sort_by_perm;
    apply Permutation_sym, sort_by_perm.
Qed.

Lemma without_js_set_cons (u : string) (ids : list string) :
  without u (js_set (u :: ids)) = without u (js_set ids).
Proof.
  unfold without. cbn [js_set filter]. rewrite String.eqb_refl. cbn [negb].
  apply filter_idem.
Qed.

(** X12. A group just created is usable by the ids it was created with.
    With every service up, after [createGroupRoom(name, ids)] by [u] on a
    store that hands out an id no room has yet: [getRooms] lists the new
    room for the creator and for every id given; and a [sendMessage] by
    the creator to the room returned notifies every id given other than
    the creator, each exactly once and nobody else, however often an id
    was repeated in [ids]. *)
Theorem createGroupRoom_then_use env (u : User.t) (name : string)
    (ids : list string) (content : utf16) (k : Message.kind) (w : World) :
  reliable env ->
  room_of (assign_id env (List.length (wire w))) w = None ->
  exists r w1 m w2 recipients,
    createGroupRoom env (Some u) name ids w = (Ok r, w1)
    /\ (forall (v : User.t),
          User.id v = User.id u \/ In (User.id v) ids ->
          exists rs w', getRooms env (Some v) w1 = (Ok rs, w') /\ In r rs)
    /\ sendMessage env (Some u) (ChatRoom.id r) content k w1 = (Ok m, w2)
    /\ map (fun s => (Notification.userId (fst s), snd s)) (sends (issued w1 w2))
       = map (fun x => (x, true)) recipients
    /\ NoDup recipients
    /\ (forall x, In x recipients <-> In x ids /\ x <> User.id u).
Proof.
  intros Hup Hfresh.
  rewrite createGroupRoom_run. cbv zeta. rewrite Hup.
  set (rid := assign_id env (List.length (wire w))) in *.
  set (r := ChatRoom.mk rid name ChatRoom.group (js_set (User.id u :: ids)) _ _).
  set (w1 := mkWorld (chat_rooms w ++ [r]) _ _ _).
  assert (Hr1 : room_of rid w1 = Some r).
  { unfold room_of, w1. cbn [chat_rooms]. rewrite filter_app.
    unfold room_of in Hfresh.
    destruct (filter (room_matches (RoomId rid)) (chat_rooms w));
      [|discriminate].
    cbn. unfold rid. now rewrite String.eqb_refl. }
  exists r, w1, (posted env u rid content k w1),
    (fanned_out env u rid content k r w1),
    (without (User.id u) (js_set ids)).
  split; [reflexivity|]. split; [|split; [|split; [|split]]].
  - intros v Hv. rewrite getRooms_run. cbv zeta. rewrite Hup.
    eexists _, _. split; [reflexivity|]. apply select_In. split.
    + unfold w1. cbn [chat_rooms]. apply in_or_app. right. now left.
    + cbn [room_matches]. apply includes_In. apply In_js_set.
      destruct Hv as [->|Hv]; [now left|now right].
  - apply (sendMessage_reliable env u rid content k r w1 Hup Hr1).
  - unfold fanned_out. rewrite issued_stored. unfold create_of, touch_of.
    cbn [sends]. rewrite sends_delivered. change (ChatRoom.members r) with (js_set (User.id u :: ids)).
    rewrite without_js_set_cons, !map_map. reflexivity.
  - apply NoDup_without, NoDup_js_set.
  - intros x. rewrite in_without, In_js_set. reflexivity.
Qed.

Lemma createGroupRoom_then_use_witness :
  exists r w1 m w2,
    createGroupRoom Sample.up (Some Sample.u1) "team" ["u2"; "u1"; "u2"; "u3"]
                    Sample.empty = (Ok r, w1)
    /\ sendMessage Sample.up (Some Sample.u1) (ChatRoom.id r) (units "hello")
                   Message.text w1 = (Ok m, w2)
    /\ map (fun s => Notification.userId (fst s)) (sends (issued w1 w2))
       = ["u2"; "u3"].
Proof.
  destruct (createGroupRoom_then_use Sample.up Sample.u1 "team"
              ["u2"; "u1"; "u2"; "u3"] (units "hello") Message.text Sample.empty
              (fun _ _ => eq_refl) eq_refl)
    as (r & w1 & m & w2 & rs & H1 & _ & H2 & _).
  exists r, w1, m, w2. split; [exact H1|]. split; [exact H2|].
  injection H1 as <- <-. injection H2 as <- <-. reflexivity.
Defined.

(** ** sendMessage, step by step *)

(** X13. [sendMessage] is three steps with no undo.  If the create request
    is refused nothing is stored and nothing else is sent.  If the update
    of the room is refused the call fails but the message is stored, the
    room is not touched and nobody is notified.  If the member lookup is
    refused the call fails with the message stored and the update of the
    room accepted.  In every case, whatever is answered, the messages held
    before are still there in front, followed by at most one new one. *)
Theorem sendMessage_steps env (u : User.t) (roomId : string) (content : utf16)
    (k : Message.kind) (w : World) :
  let n := List.length (wire w) in
  let m := posted env u roomId content k w in
  let create := create_of env u roomId content k w in
  let touch := touch_of env roomId w in
  let find := FindRooms (RoomId roomId) None (Some 1) in
  let r := sendMessage env (Some u) roomId content k w in
  (rejects env n create = true ->
   fst r = Err ApiError
   /\ chat_rooms (snd r) = chat_rooms w /\ messages (snd r) = messages w
   /\ issued w (snd r) = [(create, false)])
  /\ (rejects env n create = false -> rejects env (S n) touch = true ->
      fst r = Err ApiError
      /\ chat_rooms (snd r) = chat_rooms w
      /\ messages (snd r) = messages w ++ [m]
      /\ issued w (snd r) = [(create, true); (touch, false)])
  /\ (rejects env n create = false -> rejects env (S n) touch = false ->
      rejects env (S (S n)) find = true ->
      fst r = Err ApiError
      /\ messages (snd r) = messages w ++ [m]
      /\ issued w (snd r) = [(create, true); (touch, true); (find, false)])
  /\ (exists added, messages (snd r) = messages w ++ added
                    /\ List.length added <= 1).
Proof.
  intros n m create touch find r.
  assert (Hskip : forall l, skipn n (wire w ++ l) = l).
  { intros l. unfold n. now rewrite skipn_app, skipn_all, Nat.sub_diag. }
  split; [|split; [|split]].
  - intros Hc. subst r. rewrite sendMessage_run. cbv zeta.
    fold n create. rewrite Hc. unfold issued. cbn [fst snd wire chat_rooms messages].
    fold n. now rewrite Hskip.
  - intros Hc Ht. subst r. rewrite sendMessage_run. cbv zeta.
    fold n create touch m. rewrite Hc, Ht. unfold issued.
    cbn [fst snd wire chat_rooms messages]. fold n. now rewrite Hskip.
  - intros Hc Ht Hf. subst r. rewrite sendMessage_run. cbv zeta.
    fold n create touch m. rewrite Hc, Ht.
    rewrite notifyMembers_run. cbv zeta.
    assert (Hlen : List.length (wire (stored env u roomId content k w)) = S (S n)).
    { unfold stored. cbn [wire]. rewrite length_app. cbn. unfold n. lia. }
    rewrite Hlen. fold find. rewrite Hf. cbn [fst snd].
    rewrite issued_stored. now repeat split.
  - destruct (sendMessage_effect env (Some u) roomId content k w)
      as [_ [Hm|[x Hm]]]; fold r in Hm; rewrite Hm.
    + exists []. rewrite app_nil_r. cbn. split; [reflexivity|lia].
    + exists [x]. cbn. split; [reflexivity|lia].
Qed.

(** The store refuses every update of a room: the send fails, the message
    is stored. *)
Lemma sendMessage_steps_witness :
  let env := mkEnv (fun _ r => match r with UpdateRoom _ _ => true | _ => false end)
                   Sample.ids (Sample.ticking Sample.times) in
  let r := sendMessage env (Some Sample.u1) "r1" (units "hello") Message.text
                       Sample.office in
  fst r = Err ApiError
  /\ map Message.id (messages (snd r)) = ["m1"; "m2"; "id0"]
  /\ map snd (issued Sample.office (snd r)) = [true; false].
Proof.
  intros env r.
  destruct (proj1 (proj2 (sendMessage_steps env Sample.u1 "r1" (units "hello")
                            Message.text Sample.office)) eq_refl eq_refl)
    as (H1 & _ & H2 & H3).
  split; [exact H1|]. fold r in H2, H3. rewrite H2, H3. split; reflexivity.
Defined.

(** ** Session *)

Lemma login_run sv (email password : string) (s : Session.App) :
  let n := List.length (Session.sent s) in
  let req := Session.mkSent (Session.authorization (Session.token s))
                            (Session.PostLogin email password) in
  let tok := fst (Session.grants sv email password) in
  let usr := snd (Session.grants sv email password) in
  let ev := Session.mkSent (Session.authorization (Some tok))
              (Session.PostEvent "user_online" (User.id usr)
                 (Session.clock sv (Session.clock_reads s))) in
  Session.login sv email password s
  = if Session.refuses sv n req
    then (Err ApiError,
          Session.mkApp (Session.token s) (Session.user s)
                        (Session.sent s ++ [(req, false)])
                        (Session.clock_reads s))
    else if Session.refuses sv (S n) ev
    then (Err ApiError,
          Session.mkApp (Some tok) (Some usr)
                        (Session.sent s ++ [(req, true); (ev, false)])
                        (S (Session.clock_reads s)))
    else (Ok usr,
          Session.mkApp (Some tok) (Some usr)
                        (Session.sent s ++ [(req, true); (ev, true)])
                        (S (Session.clock_reads s))).
Proof.
  cbv zeta.
  unfold Session.login, Session.auth_login, Session.and_then, Session.fetch.
  destruct (Session.refuses sv _ _); [reflexivity|].
  unfold Session.setToken, Session.setUser, Session.updatePresence,
    Session.and_then, Session.now, Session.monitor_track, Session.fetch.
  cbn [Session.token Session.user Session.sent Session.clock_reads fst snd].
  rewrite length_app. cbn [List.length]. rewrite Nat.add_1_r.
  destruct (Session.refuses sv _ _);
    cbn [Session.token Session.user Session.sent Session.clock_reads];
    rewrite <- app_assoc; reflexivity.
Qed.

Lemma logout_run sv (s : Session.App) :
  let req := Session.mkSent (Session.authorization (Session.token s))
                            Session.PostLogout in
  Session.logout sv s
  = if Session.refuses sv (List.length (Session.sent s)) req
    then (Err ApiError,
          Session.mkApp (Session.token s) (Session.user s)
                        (Session.sent s ++ [(req, false)])
                        (Session.clock_reads s))
    else (Ok tt,
          Session.mkApp None None (Session.sent s ++ [(req, true)])
                        (Session.clock_reads s)).
Proof.
  cbv zeta.
  unfold Session.logout, Session.auth_logout, Session.and_then, Session.fetch.
  now destruct (Session.refuses sv _ _).
Qed.





(** ** Sending and listing *)

(** X16. A message that [sendMessage] returned is in the history of its
    room, and [getMessages], once its lookup is answered, returns it to
    any caller whenever the limit is not below the length of that history
    (or is 0, which is not sent).  Where it stands in the listing follows
    its [createdAt], that is the sender's clock, not the order of sending. *)
Theorem sent_message_is_listed env (u : User.t) (roomId : string) (content : utf16)
    (k : Message.kind) (w w' : World) (m : Message.t) :
  sendMessage env (Some u) roomId content k w = (Ok m, w') ->
  In m (history roomId w')
  /\ Message.roomId m = roomId
  /\ Message.createdAt m = clock env (clock_reads w)
  /\ forall (v : User.t) (limit : option nat) (w0 : World),
       messages w0 = messages w' ->
       let N := match limit with Some n => n | None => 50 end in
       N = 0 \/ List.length (history roomId w') <= N ->
       rejects env (List.length (wire w0))
               (FindMessages (MsgRoom roomId) (Some desc) (limit_param (Some N)))
       = false ->
       fst (getMessages env (Some v) roomId limit w0) = Ok (history roomId w').
Proof.
  intros H. destruct (sendMessage_ok_appends _ _ _ _ _ _ _ _ H) as [-> Hm].
  split; [|split; [reflexivity|split; [reflexivity|]]].
  - apply (Permutation_in _ (Permutation_sym (history_perm roomId w'))).
    apply filter_In. split.
    + rewrite Hm. apply in_or_app. right. now left.
    + cbn. apply String.eqb_refl.
  - intros v limit w0 Hw0 N HN Hacc. rewrite getMessages_run. cbv zeta.
    fold N. rewrite Hacc. cbn [fst]. f_equal. unfold history. rewrite Hw0.
    f_equal. unfold select at 1. unfold limit_param.
    destruct N as [|N']; [reflexivity|].
    destruct HN as [HN|HN]; [discriminate|].
    cbn [limited]. apply firstn_all2.
    unfold history in HN. rewrite length_rev in HN. exact HN.
Qed.

Lemma sent_message_is_listed_witness :
  exists m w',
    sendMessage Sample.up (Some Sample.u1) "r1" (units "hello") Message.text
                Sample.office = (Ok m, w')
    /\ option_map (map Message.id)
         (match fst (getMessages Sample.up (Some Sample.u2) "r1" None w') with
          | Ok l => Some l
          | Err _ => None
          end)
       = Some ["id0"; "m1"; "m2"].
Proof.
  destruct (sendMessage Sample.up (Some Sample.u1) "r1" (units "hello") Message.text
              Sample.office) as [[m|e] w'] eqn:E.
  - exists m, w'. split; [reflexivity|].
    destruct (sent_message_is_listed _ _ _ _ _ _ _ _ E) as (_ & _ & _ & H).
    rewrite (H Sample.u2 None w' eq_refl).
    + injection E as <- <-. reflexivity.
    + right. injection E as <- <-. vm_compute. lia.
    + reflexivity.
  - vm_compute in E. discriminate.
Defined.

(** X17. [sendMessage] does not ask whether the sender belongs to the room.
    With every service up, a message sent to an existing room by a user
    who is not among its members is stored and returned like any other,
    and every member of the room is notified. *)
Theorem sendMessage_by_non_member env (u : User.t) (roomId : string) (content : utf16)
    (k : Message.kind) (room : ChatRoom.t) (w : World) :
  reliable env ->
  room_of roomId w = Some room ->
  ~ In (User.id u) (ChatRoom.members room) ->
  exists m w',
    sendMessage env (Some u) roomId content k w = (Ok m, w')
    /\ messages w' = messages w ++ [m]
    /\ Message.userId m = User.id u
    /\ map (fun s => (Notification.userId (fst s), snd s)) (sends (issued w w'))
       = map (fun x => (x, true)) (ChatRoom.members room).
Proof.
  intros Hup Hroom Hnot. eexists _, _.
  split; [apply (sendMessage_reliable env u roomId content k room w Hup Hroom)|].
  split; [reflexivity|]. split; [reflexivity|].
  unfold fanned_out. rewrite issued_stored. unfold create_of, touch_of.
  cbn [sends]. rewrite sends_delivered, (without_absent _ _ Hnot), map_map.
  reflexivity.
Qed.

Lemma sendMessage_by_non_member_witness :
  let outsider := User.mk "u9" "u9@example.com" None None in
  exists m w',
    sendMessage Sample.up (Some outsider) "r1" (units "psst") Message.text Sample.office
    = (Ok m, w')
    /\ map (fun s => Notification.userId (fst s)) (sends (issued Sample.office w'))
       = ["u1"; "u2"; "u3"].
Proof.
  intros outsider.
  destruct (sendMessage_by_non_member Sample.up outsider "r1" (units "psst")
              Message.text Sample.team Sample.office (fun _ _ => eq_refl)
              eq_refl)
    as (m & w' & H & _).
  { cbn. intros [H|[H|[H|[]]]]; discriminate. }
  exists m, w'. split; [exact H|]. injection H as <- <-. reflexivity.
Defined.

(** ** The public interface and the authentication checks *)

Lemma raised_without_session env (c : Call) (w : World) :
  (forall x, c <> CallGetOnlineUsers x) ->
  raised env None c w = Some NotAuthenticated /\ perform env None c w = w.
Proof.
  intros H. destruct c; try (split; reflexivity). now destruct (H roomId).
Qed.

Lemma getOnlineUsers_raised env (user : option User.t) (roomId : string)
    (w : World) :
  failure (fst (getOnlineUsers env user roomId w)) = None
  \/ failure (fst (getOnlineUsers env user roomId w)) = Some ApiError.
Proof.
  rewrite getOnlineUsers_run. cbv zeta.
  destruct (rejects env _ _); [right|left]; reflexivity.
Qed.

Lemma login_raised sv (email password : string) (s : Session.App) :
  failure (fst (Session.login sv email password s)) = None
  \/ failure (fst (Session.login sv email password s)) = Some ApiError.
Proof.
  rewrite login_run. cbv zeta.
  destruct (Session.refuses sv _ _); [right; reflexivity|].
  destruct (Session.refuses sv _ _); [right|left]; reflexivity.
Qed.

Lemma logout_raised sv (s : Session.App) :
  failure (fst (Session.logout sv s)) = None
  \/ failure (fst (Session.logout sv s)) = Some ApiError.
Proof.
  rewrite logout_run. cbv zeta.
  destruct (Session.refuses sv _ _); [right|left]; reflexivity.
Qed.

(** C10, as stated, fails twice.  [getOnlineUsers] does raise: when the
    store refuses its lookup, the error of the request comes out of the
    call.  And it is not the only public operation without an
    authentication check: [logout] and [login], called without a session,
    go through. *)
Lemma getOnlineUsers_raises_and_is_not_alone :
  getOnlineUsers store_down None "r1" Sample.office
  = (Err ApiError,
     with_wire Sample.office [(FindRooms (RoomId "r1") None (Some 1), false)])
  /\ Session.user signed_out = None
  /\ fst (Session.logout sample_services signed_out) = Ok tt
  /\ fst (Session.login sample_services "u1@example.com" "secret" signed_out)
     = Ok (User.mk "id-u1@example.com" "u1@example.com" None None).
Proof. vm_compute. repeat split. Qed.

(** C10. [getOnlineUsers] checks no session and knows no missing room.
    For every session state and every room id it sends its one lookup; if
    the lookup is answered it returns the members of the room, and the
    empty list when the store has no such room; if the lookup is refused
    the error of the request comes out.  It raises neither the
    not-authenticated nor the room-not-found error under any circumstances
    and leaves rooms and messages as they are.  Of all public methods of
    [ChatApp], called without a session, those that raise the
    not-authenticated error are exactly the room and message operations
    other than [getOnlineUsers]; they raise it before sending anything.
    [login], [logout] and [getOnlineUsers] never raise it. *)
Theorem getOnlineUsers_skips_session_check sv env (user : option User.t)
    (roomId : string) (w : World) :
  let n := List.length (wire w) in
  let find := FindRooms (RoomId roomId) None (Some 1) in
  let r := getOnlineUsers env user roomId w in
  (rejects env n find = false ->
   r = (Ok match room_of roomId w with
           | Some room => ChatRoom.members room
           | None => []
           end,
        with_wire w [(find, true)]))
  /\ (rejects env n find = false -> room_of roomId w = None -> fst r = Ok [])
  /\ (rejects env n find = true ->
      r = (Err ApiError, with_wire w [(find, false)]))
  /\ fst r <> Err NotAuthenticated
  /\ fst r <> Err RoomNotFound
  /\ chat_rooms (snd r) = chat_rooms w
  /\ messages (snd r) = messages w
  /\ (forall p s,
        Session.user s = None ->
        (public_raised sv env p s w = Some NotAuthenticated
         <-> exists c, p = PublicCall c /\ forall x, c <> CallGetOnlineUsers x))
  /\ (forall c, (forall x, c <> CallGetOnlineUsers x) ->
                perform env None c w = w).
Proof.
  intros n find r.
  assert (Hrun : r = if rejects env n find
                     then (Err ApiError, with_wire w [(find, false)])
                     else (Ok match room_of roomId w with
                              | Some room => ChatRoom.members room
                              | None => []
                              end,
                           with_wire w [(find, true)]))
    by (subst r; now rewrite getOnlineUsers_run).
  split; [|split; [|split; [|split; [|split; [|split; [|split; [|split]]]]]]].
  - intros Hf. now rewrite Hrun, Hf.
  - intros Hf Hroom. now rewrite Hrun, Hf, Hroom.
  - intros Hf. now rewrite Hrun, Hf.
  - rewrite Hrun. destruct (rejects env n find); discriminate.
  - rewrite Hrun. destruct (rejects env n find); discriminate.
  - rewrite Hrun. now destruct (rejects env n find).
  - rewrite Hrun. now destruct (rejects env n find).
  - intros p s Hs. split.
    + destruct p as [email password| |c]; cbn [public_raised].
      * destruct (login_raised sv email password s) as [E|E]; rewrite E;
          discriminate.
      * destruct (logout_raised sv s) as [E|E]; rewrite E; discriminate.
      * intros H. exists c. split; [reflexivity|]. intros x ->.
        cbn [raised] in H.
        destruct (getOnlineUsers_raised env (Session.user s) x w) as [E|E];
          rewrite E in H; discriminate.
    + intros [c [-> Hc]]. cbn [public_raised]. rewrite Hs.
      apply raised_without_session, Hc.
  - intros c Hc. apply raised_without_session, Hc.
Qed.

(** No session, unknown room: the empty list. *)
Lemma getOnlineUsers_skips_session_check_witness :
  getOnlineUsers Sample.up None "r9" Sample.office
  = (Ok [],
     with_wire Sample.office [(FindRooms (RoomId "r9") None (Some 1), true)])
  /\ getOnlineUsers store_down None "r9" Sample.office
     = (Err ApiError,
        with_wire Sample.office [(FindRooms (RoomId "r9") None (Some 1), false)])
  /\ public_raised sample_services Sample.up (PublicCall CallGetRooms)
       signed_out Sample.office
     = Some NotAuthenticated.
Proof.
  split; [|split].
  - apply (proj1 (getOnlineUsers_skips_session_check sample_services Sample.up
                    None "r9" Sample.office)).
    reflexivity.
  - apply (proj1 (proj2 (proj2 (getOnlineUsers_skips_session_check
                    sample_services store_down None "r9" Sample.office)))).
    reflexivity.
  - apply (proj1 (proj2 (proj2 (proj2 (proj2 (proj2 (proj2 (proj2
             (getOnlineUsers_skips_session_check sample_services Sample.up
                None "r9" Sample.office))))))))
             (PublicCall CallGetRooms) signed_out eq_refl).
    exists CallGetRooms. split; [reflexivity|]. discriminate.
Defined.
